(** * Play.Catalog: item domain logic, repository protocol and replica sync

    A shallow embedding of the catalog service:
    - [validator]  the error-map validator used by the handlers,
    - [data]       [Item], its entity methods, [ValidateItem] and the
                   provisioning of the items collection,
    - [database]   the versioned repository the handlers call,
    - [rabbitmq]   the consumer that keeps the user replica fresh,
    - [main]       [createItemHandler] and [updateItemHandler].

    Conventions: a Go [int32]/[int64] is a [Z]; a [float64] is a binary64
    [float]; a [time.Time] in UTC is a [Z] (nanoseconds since the epoch);
    a [primitive.ObjectID] is an [N], [0] being the zero ObjectID. *)

From Stdlib Require Import Floats ZArith Lia Ascii.
From stdpp Require Import gmap strings list fin_maps.

Set Warnings "-inexact-float,-register-all".
Local Open Scope Z_scope.

(** ** Play.Common/validator *)

Module validator.

(** Modelled from the spec: the validator package lives in Play.Common and
    is not among the sources.  It is the error map the handlers pass to
    [FailedValidationResponse] ([v.Errors]): [Check] records [message]
    under [key] when its condition is false, an existing entry for the
    key is kept, and [HasErrors] tells whether the map is non-empty. *)
Record Validator := { Errors : gmap string string }.

Definition New : Validator := {| Errors := ∅ |}.

Definition AddError (v : Validator) (key message : string) : Validator :=
  match Errors v !! key with
  | Some _ => v
  | None => {| Errors := <[key := message]> (Errors v) |}
  end.

Definition Check (v : Validator) (ok : bool) (key message : string)
  : Validator :=
  if ok then v else AddError v key message.

Definition HasErrors (v : Validator) : bool :=
  negb (bool_decide (Errors v = ∅)).

(** Modelled from the spec: [Between] is missing with the rest of the
    package; the price range is "[0.1, 1000] inclusive", and the message
    of the check reads "greater or equal ... and lower or equal". *)
Definition Between (value min max : float) : bool :=
  PrimFloat.leb min value && PrimFloat.leb value max.

End validator.

(** ** The MongoDB driver, as far as provisioning uses it *)

Module mongo.

(** BSON values, for the validator document and the index keys. *)
Inductive bson :=
| BString (s : string)
| BDouble (f : float)
| BInt (z : Z)
| BBool (b : bool)
| BArray (l : list bson)
| BDoc (l : list (string * bson)).

Inductive Error :=
| NamespaceExists          (* the collection already exists *)
| IndexBuildFailed         (* createIndexes was refused *)
| ServerUnreachable        (* selection timeout, network failure *)
| Unauthorized.            (* the command was not permitted *)

Record IndexModel := { Keys : list (string * bson); Unique : bool }.

Record Collection := {
  Validator : option bson;
  Indexes : list IndexModel
}.

(** What goes wrong with the next command of each kind, if anything,
    independently of the collections present. *)
Record Faults := {
  onCreateCollection : option Error;
  onCreateIndexes : option Error
}.

(** Modelled from the spec: the driver is an external collaborator; a
    collection is created with its validator unless it "already
    exists", and any command can fail for a reason of the transport. *)
Definition CreateCollection (f : Faults) (db : gmap string Collection)
    (name : string) (validator : bson)
  : gmap string Collection * option Error :=
  match onCreateCollection f with
  | Some e => (db, Some e)
  | None =>
      match db !! name with
      | Some _ => (db, Some NamespaceExists)
      | None =>
          (<[name := {| Validator := Some validator; Indexes := [] |}]> db,
           None)
      end
  end.

Definition addIndexes (models : list IndexModel) (c : Collection)
  : Collection :=
  {| Validator := Validator c; Indexes := Indexes c ++ models |}.

Definition CreateMany (f : Faults) (db : gmap string Collection)
    (name : string) (models : list IndexModel)
  : gmap string Collection * option Error :=
  match onCreateIndexes f with
  | Some e => (db, Some e)
  | None =>
      (<[name := addIndexes models
                   (default {| Validator := None; Indexes := [] |}
                            (db !! name))]> db,
       None)
  end.

End mongo.

(** ** internal/constants *)

Module constants.
Definition Database : string := "catalog".
Definition ItemsCollection : string := "items".
Definition UsersCollection : string := "users".
End constants.

(** ** internal/data/items.go *)

Module data.
Import validator.

Definition ObjectID := N.
Definition Time := Z.

Record Item := {
  ID : ObjectID;
  Name : string;
  Description : string;
  Price : float;
  Version : Z;
  CreatedAt : Time;
  UpdatedAt : Time
}.

Definition GetID (i : Item) : ObjectID := ID i.

Definition GetVersion (i : Item) : Z := Version i.

(** The receiver is passed by value: the assignment is to the callee's
    copy, which is what is returned. *)
Definition SetVersion (i : Item) (version : Z) : Item :=
  {| ID := ID i; Name := Name i; Description := Description i;
     Price := Price i; Version := version;
     CreatedAt := CreatedAt i; UpdatedAt := UpdatedAt i |}.

Definition nonEmpty (s : string) : bool := negb (bool_decide (s = "")).

Definition ValidateItem (v : Validator) (item : Item) : Validator :=
  let v := Check v (nonEmpty (Name item)) "name" "must be provided" in
  let v := Check v (nonEmpty (Description item)) "name" "must be provided" in
  Check v (Between (Price item) 0.1 1000.0) "price"
    "must be greater or equal to 0.1 and lower or equal to 1000".

(** JSON validation schema of the items collection. *)
Definition jsonSchema : mongo.bson :=
  let prop (ty descr : string) :=
    mongo.BDoc [("bsonType", mongo.BString ty);
                ("description", mongo.BString descr)] in
  mongo.BDoc [
    ("bsonType", mongo.BString "object");
    ("required", mongo.BArray (mongo.BString <$>
       ["name"; "description"; "price"; "version";
        "created_at"; "updated_at"]));
    ("additionalProperties", mongo.BBool false);
    ("properties", mongo.BDoc [
       ("_id", prop "objectId" "Document ID");
       ("name", prop "string" "Name of the item");
       ("description", prop "string" "Description of the item");
       ("price", mongo.BDoc [("bsonType", mongo.BString "double");
                             ("minimum", mongo.BDouble 0.1);
                             ("description",
                              mongo.BString "Price of the item")]);
       ("version", mongo.BDoc [("bsonType", mongo.BString "int");
                               ("minimum", mongo.BInt 1);
                               ("description",
                                mongo.BString "Document version")]);
       ("created_at", prop "date" "Creation date");
       ("updated_at", prop "date" "Last update date")])
  ].

Definition indexModels : list mongo.IndexModel :=
  [ {| mongo.Keys := [("name", mongo.BInt 1)]; mongo.Unique := true |};
    {| mongo.Keys := [("description", mongo.BInt 1)];
       mongo.Unique := true |};
    {| mongo.Keys := [("name", mongo.BString "text")];
       mongo.Unique := false |} ].

(** [nil] is [None].  Whatever error [CreateCollection] returns, the
    function returns [nil] at once; the indexes are created only after
    a collection creation that succeeded. *)
Definition CreateItemsCollection (f : mongo.Faults)
    (db : gmap string mongo.Collection)
  : gmap string mongo.Collection * option mongo.Error :=
  let validator := mongo.BDoc [("$jsonSchema", jsonSchema)] in
  let '(db, err) :=
    mongo.CreateCollection f db constants.ItemsCollection validator in
  match err with
  | Some _ => (db, None)
  | None =>
      let '(db, err) :=
        mongo.CreateMany f db constants.ItemsCollection indexModels in
      match err with
      | Some e => (db, Some e)
      | None => (db, None)
      end
  end.

(** What the store enforces on an item document: the schema's numeric
    bounds ([version] a 32-bit int at least 1, [price] at least 0.1;
    the other properties hold of every [Item]) ... *)
Definition MaxInt32 : Z := 2147483647.

Definition itemsValidator (i : Item) : bool :=
  (1 <=? Version i) && (Version i <=? MaxInt32)
  && PrimFloat.leb 0.1 (Price i).

(** ... and the two unique indexes. *)
Definition itemsClash (d e : Item) : bool :=
  bool_decide (Name d = Name e)
  || bool_decide (Description d = Description e).

Definition withID (i : Item) (id : ObjectID) : Item :=
  {| ID := id; Name := Name i; Description := Description i;
     Price := Price i; Version := Version i;
     CreatedAt := CreatedAt i; UpdatedAt := UpdatedAt i |}.

End data.

(** ** Play.Common/database: the versioned repository *)

Module database.

(** The repository's sentinel errors ([database.ErrRecordNotFound] and
    [database.ErrEditConflict] in the handlers); any other failure of
    the store is [ErrStore]. *)
Inductive Error := ErrRecordNotFound | ErrEditConflict | ErrStore.

Inductive Result (A : Type) :=
| Ok (a : A)
| Err (e : Error).
Arguments Ok {A} a.
Arguments Err {A} e.

(** Modelled from the spec: the generic constraint of the repository
    is declared in Play.Common.  It is the Entity Contract:
    [identifier], [version] and [withVersion], a copy with the version
    replaced. *)
Class Entity (K E : Type) := {
  identifier : E → K;
  version : E → Z;
  withVersion : E → Z → E
}.

Record Filters := {
  Page : Z;
  PageSize : Z;
  Sort : string;
  SortSafelist : list string
}.

(** Modelled from the spec: "total matching count, current page, page
    size, and total pages". *)
Record Metadata := {
  CurrentPage : Z;
  PerPage : Z;
  TotalPages : Z;
  TotalRecords : Z
}.

(** ceil(n/p) on integers. *)
Definition ceilDiv (n p : Z) : Z := (n + p - 1) / p.

(** A leading "-" on the sort key means descending. *)
Definition sortKey (sort : string) : bool * string :=
  match sort with
  | String "-"%char field => (true, field)
  | _ => (false, sort)
  end.

Section MongoRepository.
Context {K E : Type} `{Countable K} {entity : Entity K E}.

(** Whether an identifier is left out of the document on insert (the
    zero value under [omitempty]): the store then assigns one. *)
Variable unset : K → bool.
(** The document as stored or read under a key: its [_id] is the key. *)
Variable keyed : E → K → E.
(** The collection's validator and its unique indexes. *)
Variable accepts : E → bool.
Variable clash : E → E → bool.
(** The order of two documents on a sort field. *)
Variable fieldLe : string → E → E → bool.
(** The cap on the page size (the spec recommends 100). *)
Variable maxPageSize : Z.

(** Another document than the one under [id] holds a value that [e]
    would duplicate. *)
Definition taken (s : gmap K E) (id : K) (e : E) : bool :=
  existsb (λ kd, negb (bool_decide (kd.1 = id)) && clash kd.2 e)
          (map_to_list s).

(** Modelled from the spec: MongoRepository is declared in Play.Common;
    this is §4.1's [create].  [fresh] is the identifier the store
    assigns when the entity brings none. *)
Definition Create (s : gmap K E) (fresh : K) (e : E)
  : gmap K E * Result K :=
  let id := if unset (identifier e) then fresh else identifier e in
  match s !! id with
  | Some _ => (s, Err ErrStore)
  | None =>
      if accepts e && negb (taken s id e)
      then (<[id := keyed e id]> s, Ok id)
      else (s, Err ErrStore)
  end.

(** Modelled from the spec: §4.1's [getByID], "fails with NotFound if
    no document matches id". *)
Definition GetByID (s : gmap K E) (id : K) : Result E :=
  match s !! id with
  | Some d => Ok (keyed d id)
  | None => Err ErrRecordNotFound
  end.

(** Modelled from the spec: §4.1's [update], one conditional write:
    the document matched by the entity's identifier and version is
    replaced by the entity with the version incremented by 1, and
    "if zero documents match the condition, the call fails with
    EditConflict". *)
Definition Update (s : gmap K E) (e : E) : gmap K E * option Error :=
  let id := identifier e in
  match s !! id with
  | Some d =>
      if bool_decide (version d = version e) then
        let e' := withVersion e (version e + 1) in
        if accepts e' && negb (taken s id e')
        then (<[id := keyed e' id]> s, None)
        else (s, Some ErrStore)
      else (s, Some ErrEditConflict)
  | None => (s, Some ErrEditConflict)
  end.

(** Modelled from the spec: §4.1's [delete], "unconditional removal by
    identifier; fails with NotFound if absent". *)
Definition Delete (s : gmap K E) (id : K) : gmap K E * option Error :=
  match s !! id with
  | Some _ => (delete id s, None)
  | None => (s, Some ErrRecordNotFound)
  end.

Fixpoint insertSorted (le : E → E → bool) (x : E) (l : list E)
  : list E :=
  match l with
  | [] => [x]
  | y :: l' => if le x y then x :: l else y :: insertSorted le x l'
  end.

Definition sortDocs (le : E → E → bool) (l : list E) : list E :=
  foldr (insertSorted le) [] l.

Definition matching (s : gmap K E) (filter : E → bool) : list E :=
  List.filter filter ((λ kd, keyed kd.2 kd.1) <$> map_to_list s).

(** A stored document, under its key, passes a filter. *)
Definition passing (filter : E → bool) (kd : K * E) : Prop :=
  filter (keyed kd.2 kd.1) = true.

#[export] Instance passing_dec (filter : E → bool) (kd : K * E)
  : Decision (passing filter kd).
Proof. unfold passing. apply _. Defined.

(** Modelled from the spec: §4.1's [getAll].  "Page/page-size must be
    positive integers; page size is capped": a request outside these
    bounds is refused, as a failure of the store.  Otherwise: the
    documents passing the filter, sorted on the caller's field, one page
    of them, and the metadata: total matching count, current page, page
    size, total pages = ceil(N/P). *)
Definition GetAll (s : gmap K E) (filter : E → bool) (f : Filters)
  : Result (list E * Metadata) :=
  if (1 <=? Page f) && (1 <=? PageSize f) && (PageSize f <=? maxPageSize)
  then
    let docs := matching s filter in
    let '(desc, field) := sortKey (Sort f) in
    let le := if desc then (λ a b, fieldLe field b a) else fieldLe field in
    let sorted := sortDocs le docs in
    let skip := (Page f - 1) * PageSize f in
    let page :=
      take (Z.to_nat (PageSize f)) (drop (Z.to_nat skip) sorted) in
    let total := Z.of_nat (length docs) in
    Ok (page,
        {| CurrentPage := Page f;
           PerPage := PageSize f;
           TotalPages := ceilDiv total (PageSize f);
           TotalRecords := total |})
  else Err ErrStore.

End MongoRepository.

(** Modelled from the spec: [database.User] is declared in Play.Common;
    the replica holds the identifier and "name, permission set,
    version". *)
Record User := {
  UserID : Z;
  UserName : string;
  Permissions : list string;
  UserVersion : Z
}.

#[export] Instance user_entity : Entity Z User := {|
  identifier := UserID;
  version := UserVersion;
  withVersion u v :=
    {| UserID := UserID u; UserName := UserName u;
       Permissions := Permissions u; UserVersion := v |}
|}.

End database.

(** ** internal/rabbitmq: the replica synchronization consumer *)

Module rabbitmq.
Import database.

(** Modelled from the spec: the "user changed" message,
    [(userId, name, permissions[], version)]. *)
Record UserUpdated := {
  ID : Z;
  Name : string;
  Perms : list string;
  Version : Z
}.

(** A delivery: the payload as decoded ([None] when it is malformed) and
    whether the store fails while this message is handled. *)
Record Delivery := {
  payload : option UserUpdated;
  storeDown : bool
}.

(** Acknowledged, or left with the transport for redelivery. *)
Inductive Outcome := Ack | Requeue.

(** The users collection: an integer identifier is always part of the
    document, and no validator or unique index rejects a replica. *)
Definition keyedUser (u : User) (id : Z) : User :=
  {| UserID := id; UserName := UserName u;
     Permissions := Permissions u; UserVersion := UserVersion u |}.

Definition usersGetByID (down : bool) (s : gmap Z User) (id : Z)
  : Result User :=
  if down then Err ErrStore else GetByID keyedUser s id.

Definition usersCreate (down : bool) (s : gmap Z User) (u : User)
  : gmap Z User * Result Z :=
  if down then (s, Err ErrStore)
  else Create (λ _, false) keyedUser (λ _, true) (λ _ _, false) s 0 u.

(** The repository's [update] on the users collection. *)
Definition usersUpdate (down : bool) (s : gmap Z User) (u : User)
  : gmap Z User * option Error :=
  if down then (s, Some ErrStore)
  else Update keyedUser (λ _, true) (λ _ _, false) s u.

Definition firstSighting (m : UserUpdated) : User :=
  {| UserID := ID m; UserName := Name m;
     Permissions := Perms m; UserVersion := Version m |}.

Definition applyFields (u : User) (m : UserUpdated) : User :=
  {| UserID := UserID u; UserName := Name m;
     Permissions := Perms m; UserVersion := Version m |}.

(** Modelled from the spec: the consumer is in internal/rabbitmq, which
    is not among the sources; this is the per-message protocol of §4.3:
    decode; [getByID]; on NotFound create the replica with the incoming
    fields and version; when found, discard an event whose version is
    not above the stored one, and for a newer one apply the fields, set
    the entity's version to the incoming value and [update]; acknowledge
    after a successful apply or discard, and leave the message for
    redelivery on a decode failure or any other repository failure.
    Every read and write goes through the repository (§3). *)
Definition handleDelivery (s : gmap Z User) (d : Delivery)
  : gmap Z User * Outcome :=
  match payload d with
  | None => (s, Requeue)
  | Some m =>
      match usersGetByID (storeDown d) s (ID m) with
      | Err ErrRecordNotFound =>
          match usersCreate (storeDown d) s (firstSighting m) with
          | (s', Ok _) => (s', Ack)
          | (s', Err _) => (s', Requeue)
          end
      | Err _ => (s, Requeue)
      | Ok u =>
          if Version m <=? UserVersion u then (s, Ack)
          else
            match usersUpdate (storeDown d) s (applyFields u m) with
            | (s', None) => (s', Ack)
            | (s', Some _) => (s', Requeue)
            end
      end
  end.

(** The receive loop over the deliveries of a run, in order. *)
Definition StartConsumer (s : gmap Z User) (ds : list Delivery)
  : gmap Z User :=
  foldl (λ s d, (handleDelivery s d).1) s ds.

Definition delivered (m : UserUpdated) : Delivery :=
  {| payload := Some m; storeDown := false |}.



End rabbitmq.

(** ** cmd/api: the handlers and the provisioning step of [main] *)

Module main.
Import validator data database.

#[export] Instance item_entity : Entity ObjectID Item := {|
  identifier := GetID;
  version := GetVersion;
  withVersion := SetVersion
|}.

(** [ItemsRepository]: the generic repository on the items collection.
    [_id] is [omitempty], the validator and unique indexes are those of
    [CreateItemsCollection]. *)
Definition itemsUnset (id : ObjectID) : bool := bool_decide (id = 0%N).

Definition itemsCreate := Create itemsUnset withID itemsValidator itemsClash.
Definition itemsGetByID := GetByID withID.
Definition itemsUpdate := Update withID itemsValidator itemsClash.
Definition itemsDelete := Delete (K := ObjectID) (E := Item).

(** *** Requests and responses *)

Module create.
Record input := {
  Name : string;
  Description : string;
  Price : float
}.
End create.

(** A [None] field is a nil pointer: the key was not in the body. *)
Module update.
Record input := {
  Name : option string;
  Description : option string;
  Price : option float
}.
End update.

Inductive Response :=
| OKResponse (message : string)
| CreatedResponse (message : string) (location : ObjectID)
| NotFoundResponse
| BadRequestResponse
| FailedValidationResponse (errors : gmap string string)
| EditConflictResponse
| ServerErrorResponse.

(** *** What a handler asks of its environment *)

Inductive Call : Type → Type :=
| TimeNowUTC : Call Time
| RepoGetByID (id : ObjectID) : Call (Result Item)
| RepoCreate (item : Item) : Call (Result ObjectID)
| RepoUpdate (item : Item) : Call (option Error)
| WriteJSON (status : Z) : Call bool.

Inductive Prog (R : Type) : Type :=
| Ret (r : R)
| Do {X : Type} (c : Call X) (k : X → Prog R).
Arguments Ret {R} r.
Arguments Do {R X} c k.

Notation "'call' x ← c ; k" := (Do c (λ x, k))
  (at level 10, x name, c at level 100, k at level 200, only parsing).

(** [createItemHandler]; [body] is what [ReadJSON] decoded, [None] when
    it failed.  The two timestamps are two readings of the clock, in
    the order of the fields of the literal. *)
Definition createItemHandler (body : option create.input)
  : Prog Response :=
  match body with
  | None => Ret BadRequestResponse
  | Some input =>
      call createdAt ← TimeNowUTC;
      call updatedAt ← TimeNowUTC;
      let item :=
        {| ID := 0%N;
           Name := create.Name input;
           Description := create.Description input;
           Price := create.Price input;
           Version := 1;
           CreatedAt := createdAt;
           UpdatedAt := updatedAt |} in
      let v := ValidateItem New item in
      if HasErrors v then Ret (FailedValidationResponse (Errors v))
      else
        call r ← RepoCreate item;
        match r with
        | Err _ => Ret ServerErrorResponse
        | Ok id =>
            call ok ← WriteJSON 201;
            if ok then Ret (CreatedResponse "Item created successfully" id)
            else Ret ServerErrorResponse
        end
  end.

Definition setName (i : Item) (n : string) : Item :=
  {| ID := ID i; Name := n; Description := Description i;
     Price := Price i; Version := Version i;
     CreatedAt := CreatedAt i; UpdatedAt := UpdatedAt i |}.

Definition setDescription (i : Item) (d : string) : Item :=
  {| ID := ID i; Name := Name i; Description := d;
     Price := Price i; Version := Version i;
     CreatedAt := CreatedAt i; UpdatedAt := UpdatedAt i |}.

Definition setPrice (i : Item) (p : float) : Item :=
  {| ID := ID i; Name := Name i; Description := Description i;
     Price := p; Version := Version i;
     CreatedAt := CreatedAt i; UpdatedAt := UpdatedAt i |}.

Definition setUpdatedAt (i : Item) (t : Time) : Item :=
  {| ID := ID i; Name := Name i; Description := Description i;
     Price := Price i; Version := Version i;
     CreatedAt := CreatedAt i; UpdatedAt := t |}.

(** The copy of the supplied fields onto the fetched item. *)
Definition merge (item : Item) (input : update.input) : Item :=
  let item := match update.Name input with
              | Some n => setName item n | None => item end in
  let item := match update.Description input with
              | Some d => setDescription item d | None => item end in
  match update.Price input with
  | Some p => setPrice item p | None => item end.

(** [updateItemHandler]; [idParam] is what [ReadObjectIDParam] returned,
    [None] when the parameter is not an ObjectID. *)
Definition updateItemHandler (idParam : option ObjectID)
    (body : option update.input) : Prog Response :=
  match idParam with
  | None => Ret NotFoundResponse
  | Some id =>
      call r ← RepoGetByID id;
      match r with
      | Err ErrRecordNotFound => Ret NotFoundResponse
      | Err _ => Ret ServerErrorResponse
      | Ok item =>
          match body with
          | None => Ret BadRequestResponse
          | Some input =>
              let item := merge item input in
              call now ← TimeNowUTC;
              let item := setUpdatedAt item now in
              let v := ValidateItem New item in
              if HasErrors v then Ret (FailedValidationResponse (Errors v))
              else
                call err ← RepoUpdate item;
                match err with
                | Some ErrEditConflict => Ret EditConflictResponse
                | Some _ => Ret ServerErrorResponse
                | None =>
                    call ok ← WriteJSON 200;
                    if ok then Ret (OKResponse "Item updated successfully")
                    else Ret ServerErrorResponse
                end
          end
      end
  end.

(** *** The environment of a request *)

(** A write of another request that reaches the store meanwhile. *)
Inductive Writer :=
| WCreate (fresh : ObjectID) (e : Item)
| WUpdate (e : Item)
| WDelete (id : ObjectID).

Definition write (s : gmap ObjectID Item) (w : Writer)
  : gmap ObjectID Item :=
  match w with
  | WCreate fresh e => (itemsCreate s fresh e).1
  | WUpdate e => (itemsUpdate s e).1
  | WDelete id => (itemsDelete s id).1
  end.

Definition interleave (s : gmap ObjectID Item) (ws : list Writer)
  : gmap ObjectID Item :=
  foldl write s ws.

(** The repository calls a handler made, in order. *)
Inductive RepoOp :=
| OpGetByID (id : ObjectID)
| OpCreate (item : Item)
| OpUpdate (item : Item).

Record World := {
  store : gmap ObjectID Item;
  (** the successive readings of [time.Now().UTC()] *)
  clock : nat → Time;
  ticks : nat;
  (** the identifier the store assigns next *)
  nextID : ObjectID;
  (** the other writers' operations that reach the store before each
      of the handler's repository calls, first call first *)
  others : list (list Writer);
  (** whether the response can be written *)
  jsonOK : bool;
  ops : list RepoOp
}.

Definition tick (w : World) : World :=
  {| store := store w; clock := clock w; ticks := S (ticks w);
     nextID := nextID w; others := others w; jsonOK := jsonOK w;
     ops := ops w |}.

(** The store as a repository call finds it, the call being logged. *)
Definition arrive (op : RepoOp) (w : World) : World :=
  {| store := interleave (store w) (hd [] (others w));
     clock := clock w; ticks := ticks w; nextID := nextID w;
     others := tl (others w); jsonOK := jsonOK w;
     ops := ops w ++ [op] |}.

Definition withStore (w : World) (s : gmap ObjectID Item) : World :=
  {| store := s; clock := clock w; ticks := ticks w; nextID := nextID w;
     others := others w; jsonOK := jsonOK w; ops := ops w |}.

Definition assigned (w : World) : World :=
  {| store := store w; clock := clock w; ticks := ticks w;
     nextID := N.succ (nextID w); others := others w;
     jsonOK := jsonOK w; ops := ops w |}.

Definition exec {X : Type} (w : World) (c : Call X) : World * X :=
  match c in Call X return World * X with
  | TimeNowUTC => (tick w, clock w (ticks w))
  | RepoGetByID id =>
      let w := arrive (OpGetByID id) w in
      (w, itemsGetByID (store w) id)
  | RepoCreate item =>
      let w := arrive (OpCreate item) w in
      let '(s, r) := itemsCreate (store w) (nextID w) item in
      (assigned (withStore w s), r)
  | RepoUpdate item =>
      let w := arrive (OpUpdate item) w in
      let '(s, err) := itemsUpdate (store w) item in
      (withStore w s, err)
  | WriteJSON _ => (w, jsonOK w)
  end.

Fixpoint run {R : Type} (w : World) (p : Prog R) : World * R :=
  match p with
  | Ret r => (w, r)
  | Do c k => let '(w', x) := exec w c in run w' (k x)
  end.

(** The store as the handler's first and second repository calls find
    it, given the other writers' operations scheduled before each. *)
Definition atFirstCall (w : World) : gmap ObjectID Item :=
  interleave (store w) (hd [] (others w)).

Definition atSecondCall (w : World) : gmap ObjectID Item :=
  interleave (atFirstCall w) (hd [] (tl (others w))).

(** The item [updateItemHandler] validates and sends to [Update]. *)
Definition edited (w : World) (read : Item) (input : update.input) : Item :=
  setUpdatedAt (merge read input) (clock w (ticks w)).

(** *** Provisioning at startup *)

(** [logger.Fatal] ends the process; otherwise [main] goes on. *)
Inductive Startup :=
| Fatal (err : mongo.Error)
| GoesOn (db : gmap string mongo.Collection).

Definition provisionItems (f : mongo.Faults)
    (db : gmap string mongo.Collection) : Startup :=
  match CreateItemsCollection f db with
  | (_, Some err) => Fatal err
  | (db, None) => GoesOn db
  end.

End main.

(** ** Concrete stores, requests and deliveries *)

Module Scenario.
Import validator data database main.

Definition sword : Item :=
  {| ID := 7%N; Name := "Sword"; Description := "A sharp blade";
     Price := 0.1; Version := 1; CreatedAt := 100; UpdatedAt := 100 |}.

Definition unnamed : Item :=
  {| ID := 0%N; Name := "Potion"; Description := "";
     Price := 1000.01; Version := 1; CreatedAt := 100; UpdatedAt := 100 |}.

Definition steadyClock (start step : Z) (n : nat) : Time :=
  start + step * Z.of_nat n.

(** A store holding [sword] under id 7, with nobody else writing. *)
Definition quiet : World :=
  {| store := {[ 7%N := sword ]};
     clock := steadyClock 5000 10; ticks := 0; nextID := 8%N;
     others := []; jsonOK := true; ops := [] |}.

Definition priceOnly (p : float) : update.input :=
  {| update.Name := None; update.Description := None;
     update.Price := Some p |}.

(** The same store, and another request that updates the sword between
    the handler's read and its write. *)
Definition raced : World :=
  {| store := {[ 7%N := sword ]};
     clock := steadyClock 5000 10; ticks := 0; nextID := 8%N;
     others := [[]; [WUpdate (setPrice sword 20)]];
     jsonOK := true; ops := [] |}.

(** An empty store, and a clock whose two next readings are 150ns apart,
    on the two sides of a millisecond. *)
Definition atMidnight : World :=
  {| store := ∅;
     clock := steadyClock 1700000000999999900 150;
     ticks := 0; nextID := 7%N;
     others := []; jsonOK := true; ops := [] |}.

Definition potion : create.input :=
  {| create.Name := "Potion"; create.Description := "Restores health";
     create.Price := 5 |}.

(** The sword as the other request leaves it. *)
Definition sword2 : Item := SetVersion (setPrice sword 20) 2.

Definition before : gmap ObjectID Item := {[ 7%N := sword ]}.
Definition after : gmap ObjectID Item := {[ 7%N := sword2 ]}.

Definition repriced : World * Response :=
  run quiet (updateItemHandler (Some 7%N) (Some (priceOnly 9))).

Definition rejected : World * Response :=
  run quiet (updateItemHandler (Some 7%N) (Some (priceOnly 0))).

Definition unpriced : World * Response :=
  run quiet (createItemHandler
               (Some {| create.Name := "Shield"; create.Description := "";
                        create.Price := 0 |})).

Definition shelf : gmap ObjectID Item :=
  {[ 1%N := sword;
     2%N := setName (setDescription sword "A round shield") "Shield";
     3%N := setName (setDescription sword "A long bow") "Bow" ]}.

Definition byName (field : string) (a b : Item) : bool :=
  String.leb (Name a) (Name b).

End Scenario.

Module Feed.
Import rabbitmq.

Definition event (version : Z) (name : string) (perms : list string)
  : Delivery :=
  delivered {| ID := 42; Name := name; Perms := perms;
               Version := version |}.

Definition v3 := event 3 "carol" ["catalog:read"].
Definition v2 := event 2 "carl" [].
Definition v5 := event 5 "caroline" ["catalog:read"; "catalog:write"].

End Feed.

(** ** cmd/api: the other handlers and the routes *)

Module api.
Import validator data database main.

(** *** Replies *)

(** The envelope of a 200 reply that carries more than a message. *)
Inductive Envelope :=
| EnvStatus (status : string)
| EnvItem (item : Item)
| EnvItems (items : list Item) (metadata : Metadata).

Inductive Reply :=
| Plain (r : Response)
| OKEnvelope (env : Envelope).

(** *** Calls *)

(** The calls of [createItemHandler] and [updateItemHandler], and the two
    other methods of [ItemsRepository] the handlers use. *)
Inductive Effect : Type → Type :=
| Base {X : Type} (c : Call X) : Effect X
| RepoDelete (id : ObjectID) : Effect (option Error)
| RepoGetAll (filter : gmap string mongo.bson) (f : Filters)
  : Effect (Result (list Item * Metadata)).

Inductive Handler (R : Type) : Type :=
| Done (r : R)
| Ask {X : Type} (c : Effect X) (k : X → Handler R).
Arguments Done {R} r.
Arguments Ask {R X} c k.

Notation "'ask' x ← c ; k" := (Ask c (λ x, k))
  (at level 10, x name, c at level 100, k at level 200, only parsing).

(** [createItemHandler] and [updateItemHandler] among the others. *)
Fixpoint lift (p : Prog Response) : Handler Reply :=
  match p with
  | Ret r => Done (Plain r)
  | Do c k => Ask (Base c) (λ x, lift (k x))
  end.

(** *** What a handler does, whatever the repository answers *)

Inductive Op :=
| OpRepo (op : RepoOp)
| OpDelete (id : ObjectID)
| OpGetAll (filter : gmap string mongo.bson) (f : Filters).

Definition isWrite (op : Op) : bool :=
  match op with
  | OpRepo (OpCreate _) | OpRepo (OpUpdate _) | OpDelete _ => true
  | OpRepo (OpGetByID _) | OpGetAll _ _ => false
  end.

Definition repoOpOf {X : Type} (c : Call X) : option RepoOp :=
  match c with
  | RepoGetByID id => Some (OpGetByID id)
  | RepoCreate item => Some (OpCreate item)
  | RepoUpdate item => Some (OpUpdate item)
  | TimeNowUTC | WriteJSON _ => None
  end.

Definition opOf {X : Type} (c : Effect X) : list Op :=
  match c with
  | Base c => match repoOpOf c with Some op => [OpRepo op] | None => [] end
  | RepoDelete id => [OpDelete id]
  | RepoGetAll filter f => [OpGetAll filter f]
  end.

(** [outcome p t r]: for some answers of the clock, the repository and
    the response writer, [p] makes the repository calls [t], in this
    order, and replies [r]. *)
Fixpoint outcome {R : Type} (p : Handler R) (t : list Op) (r : R) : Prop :=
  match p with
  | Done r' => t = [] ∧ r' = r
  | Ask c k => ∃ x t', outcome (k x) t' r ∧ t = opOf c ++ t'
  end.

(** *** The handlers *)

Definition healthCheckHandler : Handler Reply :=
  ask ok ← Base (WriteJSON 200);
  if ok then Done (OKEnvelope (EnvStatus "available"))
  else Done (Plain ServerErrorResponse).

(** [idParam] is what [ReadObjectIDParam] returned, [None] on an error. *)
Definition getItemHandler (idParam : option ObjectID) : Handler Reply :=
  match idParam with
  | None => Done (Plain NotFoundResponse)
  | Some id =>
      ask r ← Base (RepoGetByID id);
      match r with
      | Err ErrRecordNotFound => Done (Plain NotFoundResponse)
      | Err _ => Done (Plain ServerErrorResponse)
      | Ok item =>
          ask ok ← Base (WriteJSON 200);
          if ok then Done (OKEnvelope (EnvItem item))
          else Done (Plain ServerErrorResponse)
      end
  end.

Definition deleteItemHandler (idParam : option ObjectID) : Handler Reply :=
  match idParam with
  | None => Done (Plain NotFoundResponse)
  | Some id =>
      ask err ← RepoDelete id;
      match err with
      | Some ErrRecordNotFound => Done (Plain NotFoundResponse)
      | Some _ => Done (Plain ServerErrorResponse)
      | None =>
          ask ok ← Base (WriteJSON 200);
          if ok then Done (Plain (OKResponse "Item deleted successfully"))
          else Done (Plain ServerErrorResponse)
      end
  end.

(** The values [getItemsHandler] holds once the query string is read. *)
Module query.
Record input := {
  Name : string;
  MinPrice : float;
  MaxPrice : float;
  Page : Z;
  PageSize : Z;
  Sort : string
}.
End query.

Section Listing.

(** [database.DefaultPrice] and [filters.ValidateFilters] are declared in
    Play.Common. *)
Variable DefaultPrice : float.
Variable ValidateFilters : Validator → Filters → Validator.

(** Go's [!=] and [==] on float64. *)
Definition given (p : float) : bool := negb (PrimFloat.eqb p DefaultPrice).
Definition omitted (p : float) : bool := PrimFloat.eqb p DefaultPrice.

Definition sortSafelist : list string :=
  ["_id"; "name"; "price"; "-_id"; "-name"; "-price"].

Definition queryFilters (input : query.input) : Filters :=
  {| Page := query.Page input;
     PageSize := query.PageSize input;
     Sort := query.Sort input;
     SortSafelist := sortSafelist |}.

(** The checks on the query string; [v] is the validator as the reads of
    the query string left it. *)
Definition validateQuery (v : Validator) (input : query.input) : Validator :=
  let v := Check v (Between (query.MinPrice input) 0.1 1000) "min_price"
             "must be greater or equal to 0.1 or lower and equal to 1000" in
  let v := Check v (Between (query.MaxPrice input) 0.1 1000) "max_price"
             "must be greater or equal to 0.1 or lower and equal to 1000" in
  let v :=
    if given (query.MinPrice input) && given (query.MaxPrice input)
    then Check v (PrimFloat.leb (query.MinPrice input) (query.MaxPrice input))
           "max_price" "must be greater or equal to specified min_price"
    else v in
  ValidateFilters v (queryFilters input).

(** The query filters: [filter := bson.M{}] and the assignments to it. *)
Definition queryFilter (input : query.input) : gmap string mongo.bson :=
  let filter : gmap string mongo.bson := ∅ in
  let filter :=
    if negb (bool_decide (query.Name input = ""))
    then <["$text" :=
             mongo.BDoc [("$search", mongo.BString (query.Name input))]]>
           filter
    else filter in
  let min := query.MinPrice input in
  let max := query.MaxPrice input in
  if given min && omitted max
  then <["price" := mongo.BDoc [("$gte", mongo.BDouble min)]]> filter
  else if given max && omitted min
  then <["price" := mongo.BDoc [("$lte", mongo.BDouble max)]]> filter
  else if given max && given min
  then <["price" := mongo.BDoc [("$gte", mongo.BDouble min);
                                ("$lte", mongo.BDouble max)]]> filter
  else filter.

Definition getItemsHandler (v : Validator) (input : query.input)
  : Handler Reply :=
  let v := validateQuery v input in
  if HasErrors v then Done (Plain (FailedValidationResponse (Errors v)))
  else
    ask r ← RepoGetAll (queryFilter input) (queryFilters input);
    match r with
    | Err _ => Done (Plain ServerErrorResponse)
    | Ok (items, metadata) =>
        ask ok ← Base (WriteJSON 200);
        if ok then Done (OKEnvelope (EnvItems items metadata))
        else Done (Plain ServerErrorResponse)
    end.

End Listing.

(** *** routes *)

Inductive Method := GET | POST | PUT | DELETE.

Inductive Endpoint :=
| HealthCheck
| GetItems
| GetItem
| CreateItem
| UpdateItem
| DeleteItem
| Metrics.

(** A route: whether [Authenticate] runs before it, the permission that
    [RequirePermission] asks for, and where it ends. *)
Record Route := {
  method : Method;
  pattern : string;
  authenticated : bool;
  permission : option string;
  endpoint : Endpoint
}.

(** The routes of the "/items" group, under [r.Use(app.Authenticate ...)]. *)
Definition itemsRoute (m : Method) (sub perm : string) (e : Endpoint)
  : Route :=
  {| method := m; pattern := "/items" +:+ sub; authenticated := true;
     permission := Some perm; endpoint := e |}.

Definition openRoute (pat : string) (e : Endpoint) : Route :=
  {| method := GET; pattern := pat; authenticated := false;
     permission := None; endpoint := e |}.

Definition routes : list Route :=
  [ openRoute "/healthcheck" HealthCheck;
    itemsRoute GET "/" "catalog:read" GetItems;
    itemsRoute GET "/{id}" "catalog:read" GetItem;
    itemsRoute POST "/" "catalog:write" CreateItem;
    itemsRoute PUT "/{id}" "catalog:write" UpdateItem;
    itemsRoute DELETE "/{id}" "catalog:write" DeleteItem;
    openRoute "/metrics" Metrics ].

(** What the handlers read from a request. *)
Record Request := {
  idParam : option ObjectID;
  createBody : option create.input;
  updateBody : option update.input;
  queryErrors : Validator;
  queryInput : query.input
}.

(** The handler behind an endpoint; the metrics endpoint is served by
    the Prometheus client and is not one of them. *)
Definition serve (DefaultPrice : float)
    (ValidateFilters : Validator → Filters → Validator)
    (e : Endpoint) (req : Request) : option (Handler Reply) :=
  match e with
  | HealthCheck => Some healthCheckHandler
  | GetItems =>
      Some (getItemsHandler DefaultPrice ValidateFilters
              (queryErrors req) (queryInput req))
  | GetItem => Some (getItemHandler (idParam req))
  | CreateItem => Some (lift (createItemHandler (createBody req)))
  | UpdateItem =>
      Some (lift (updateItemHandler (idParam req) (updateBody req)))
  | DeleteItem => Some (deleteItemHandler (idParam req))
  | Metrics => None
  end.

End api.

(** ** The item documents and the schema of the collection *)

Module schema.
Import data.

(** The values of an item document, by BSON type. *)
Inductive Value :=
| VObjectID (id : ObjectID)
| VString (s : string)
| VDouble (f : float)
| VInt32 (z : Z)
| VDate (t : Time).

Definition bsonType (v : Value) : string :=
  match v with
  | VObjectID _ => "objectId"
  | VString _ => "string"
  | VDouble _ => "double"
  | VInt32 _ => "int"
  | VDate _ => "date"
  end.

(** The document of an item, after the bson tags of [Item]; [_id] is
    [omitempty] and left out when it is the zero ObjectID. *)
Definition Marshal (i : Item) : list (string * Value) :=
  (if bool_decide (ID i = 0%N) then [] else [("_id", VObjectID (ID i))])
  ++ [ ("name", VString (Name i));
       ("description", VString (Description i));
       ("price", VDouble (Price i));
       ("version", VInt32 (Version i));
       ("created_at", VDate (CreatedAt i));
       ("updated_at", VDate (UpdatedAt i)) ].

Fixpoint assoc {A : Type} (key : string) (l : list (string * A))
  : option A :=
  match l with
  | [] => None
  | (k, v) :: l' => if bool_decide (k = key) then Some v else assoc key l'
  end.

Definition field (key : string) (doc : mongo.bson) : option mongo.bson :=
  match doc with
  | mongo.BDoc l => assoc key l
  | _ => None
  end.

(** [minimum] bounds numbers, inclusively, and nothing else.  The items
    schema bounds a double by a double and an int by an int; a bound of
    the other numeric type is not interpreted and accepts nothing. *)
Definition meetsMinimum (min : mongo.bson) (v : Value) : bool :=
  match min, v with
  | mongo.BDouble m, VDouble f => PrimFloat.leb m f
  | mongo.BInt m, VInt32 z => m <=? z
  | mongo.BDouble _, VInt32 _ | mongo.BInt _, VDouble _ => false
  | _, _ => true
  end.

Definition propertyAccepts (prop : mongo.bson) (v : Value) : bool :=
  match field "bsonType" prop with
  | Some (mongo.BString ty) => bool_decide (ty = bsonType v)
  | Some _ => false
  | None => true
  end
  && match field "minimum" prop with
     | Some min => meetsMinimum min v
     | None => true
     end.

(** The keywords of [$jsonSchema] that the items schema uses, on a
    document: [bsonType] "object", [required], [additionalProperties]
    and [properties] with [bsonType] and [minimum]; [description] is an
    annotation. *)
Definition accepts (schema : mongo.bson) (doc : list (string * Value))
  : bool :=
  let props := match field "properties" schema with
               | Some (mongo.BDoc l) => l
               | _ => []
               end in
  match field "bsonType" schema with
  | Some (mongo.BString ty) => bool_decide (ty = "object")
  | Some _ => false
  | None => true
  end
  && match field "required" schema with
     | Some (mongo.BArray keys) =>
         forallb (λ key, match key with
                         | mongo.BString k => bool_decide (is_Some (assoc k doc))
                         | _ => false
                         end) keys
     | Some _ => false
     | None => true
     end
  && match field "additionalProperties" schema with
     | Some (mongo.BBool false) =>
         forallb (λ kv, bool_decide (is_Some (assoc kv.1 props))) doc
     | _ => true
     end
  && forallb (λ kv, match assoc kv.1 props with
                    | Some prop => propertyAccepts prop kv.2
                    | None => true
                    end) doc.

End schema.

(** ** cmd/api: the startup sequence of [main] *)

Module startup.

(** The calls of [main], in the order of the text, and the three
    deferred ones. *)
Inductive Step :=
| NewLogger
| LoadConfig
| NewMongoClient
| CreateItemsCollection
| CreateUsersCollection
| SetupTracer
| NewRabbitMQConnection
| NewUsersRepository
| NewUserUpdatedConsumer
| GoStartConsumer
| OtelTracer
| NewItemsRepository
| Routes
| Serve
| CloseRabbitMQ
| ShutdownTracer
| DisconnectMongo.

#[export] Instance Step_eq_dec : EqDecision Step.
Proof. solve_decision. Defined.

(** How a call ends: it returns ([failed]: with an error, for the calls
    that have one), or it panics. *)
Inductive Answer :=
| Returned (failed : bool)
| Panicked.

#[export] Instance Answer_eq_dec : EqDecision Answer.
Proof. solve_decision. Defined.

(** A run of [main]: a call and what follows its answer; the exit of
    [logger.Fatal], which runs no deferred call; the return of [main];
    the crash of the process at the end of a panic. *)
Inductive Main :=
| Call (s : Step) (k : Answer → Main)
| FatalExit
| Return
| Crash.

(** The deferred calls, last registered first, on the return of [main]
    or while a panic unwinds; a deferred call that panics does not stop
    the next ones.  An error of the disconnection is fatal, one of the
    tracer's shutdown is logged, the closing of the connection has no
    result that is looked at. *)
Fixpoint runDeferred (ds : list Step) (finally : Main) : Main :=
  match ds with
  | [] => finally
  | d :: ds' =>
      Call d (λ a,
        match a with
        | Panicked => runDeferred ds' Crash
        | Returned failed =>
            if failed && bool_decide (d = DisconnectMongo) then FatalExit
            else runDeferred ds' finally
        end)
  end.

(** A call whose error, if it has one, is not tested. *)
Definition always (ds : list Step) (s : Step) (next : Main) : Main :=
  Call s (λ a,
    match a with
    | Returned _ => next
    | Panicked => runDeferred ds Crash
    end).

(** A call followed by [if err != nil { logger.Fatal(err, nil) }]. *)
Definition checked (ds : list Step) (s : Step) (next : Main) : Main :=
  Call s (λ a,
    match a with
    | Returned false => next
    | Returned true => FatalExit
    | Panicked => runDeferred ds Crash
    end).

(** [main]; the first argument of each call is what is deferred when it
    is made.  The error of [NewMongoClient] is assigned and not tested:
    the next statement overwrites it. *)
Definition main : Main :=
  let d1 := [DisconnectMongo] in
  let d2 := ShutdownTracer :: d1 in
  let d3 := CloseRabbitMQ :: d2 in
  always [] NewLogger (
  checked [] LoadConfig (
  always [] NewMongoClient (
  checked d1 CreateItemsCollection (
  checked d1 CreateUsersCollection (
  always d1 SetupTracer (
  checked d2 NewRabbitMQConnection (
  always d3 NewUsersRepository (
  always d3 NewUserUpdatedConsumer (
  always d3 GoStartConsumer (
  always d3 OtelTracer (
  always d3 NewItemsRepository (
  always d3 Routes (
  checked d3 Serve (
  runDeferred d3 Return)))))))))))))).

(** [reaches m t]: [m] can make the calls of [t], with these answers, in
    this order (and perhaps more after them). *)
Fixpoint reaches (m : Main) (t : list (Step * Answer)) {struct t} : Prop :=
  match t with
  | [] => True
  | (s, answer) :: t' =>
      match m with
      | Call s' k => s' = s ∧ reaches (k answer) t'
      | FatalExit | Return | Crash => False
      end
  end.

(** A run that is over. *)
Definition halted (m : Main) : Prop :=
  match m with Call _ _ => False | _ => True end.




End startup.

(** ** Further concrete cases *)

Module Cases.
Import validator data database main api.

Definition itemsSchema : mongo.bson :=
  mongo.BDoc [("$jsonSchema", jsonSchema)].

Definition calm : mongo.Faults :=
  {| mongo.onCreateCollection := None; mongo.onCreateIndexes := None |}.

Definition indexesDown : mongo.Faults :=
  {| mongo.onCreateCollection := None;
     mongo.onCreateIndexes := Some mongo.IndexBuildFailed |}.

Definition usersOnly : gmap string mongo.Collection :=
  {[ constants.UsersCollection :=
       {| mongo.Validator := None; mongo.Indexes := [] |} ]}.

Definition potionItem : Item :=
  {| ID := 0%N; Name := "Potion"; Description := "Restores health";
     Price := 5; Version := 1;
     CreatedAt := 1700000000999999900;
     UpdatedAt := 1700000001000000050 |}.

(** A listing of the items named like "bow" that cost at least 2. *)
Definition bows : query.input :=
  {| query.Name := "bow"; query.MinPrice := 2; query.MaxPrice := 0.1;
     query.Page := 1; query.PageSize := 20; query.Sort := "_id" |}.

(** A stand-in for [filters.ValidateFilters]: one check on the page. *)
Definition pageCheck (v : Validator) (f : Filters) : Validator :=
  Check v (0 <? Page f) "page" "must be greater than zero".

Definition anyRequest : Request :=
  {| idParam := Some 7%N;
     createBody := Some Scenario.potion;
     updateBody := Some (Scenario.priceOnly 9);
     queryErrors := New;
     queryInput := bows |}.

Definition deleteRoute : Route :=
  itemsRoute DELETE "/{id}" "catalog:write" DeleteItem.

(** A startup without error or panic, up to [Serve] returning nil and
    the deferred calls. *)
Definition cleanStart : list (startup.Step * startup.Answer) :=
  (λ s, (s, startup.Returned false)) <$>
  [ startup.NewLogger; startup.LoadConfig; startup.NewMongoClient;
    startup.CreateItemsCollection; startup.CreateUsersCollection;
    startup.SetupTracer; startup.NewRabbitMQConnection;
    startup.NewUsersRepository; startup.NewUserUpdatedConsumer;
    startup.GoStartConsumer; startup.OtelTracer;
    startup.NewItemsRepository; startup.Routes; startup.Serve ].

Definition cleanStop : list (startup.Step * startup.Answer) :=
  (λ s, (s, startup.Returned false)) <$>
  [ startup.CloseRabbitMQ; startup.ShutdownTracer;
    startup.DisconnectMongo ].

(** A startup in which the provisioning of the items panics. *)
Definition panicStart : list (startup.Step * startup.Answer) :=
  [ (startup.NewLogger, startup.Returned false);
    (startup.LoadConfig, startup.Returned false);
    (startup.NewMongoClient, startup.Returned true);
    (startup.CreateItemsCollection, startup.Panicked) ].

End Cases.

(** * Properties *)

Import validator data database Scenario.

(** ** Item: entity methods and validation *)

Section ItemLogic.

(** C8: [SetVersion i v] is a copy of [i] whose version is [v]; id,
    name, description, price, createdAt and updatedAt are those of [i].
    Putting the version of [i] back gives [i] again.  The receiver is
    passed by value: [i] is what the caller still holds after the
    call. *)
Theorem SetVersion_copy (i : Item) (v : Z) :
  GetVersion (SetVersion i v) = v
  ∧ GetID (SetVersion i v) = GetID i
  ∧ Name (SetVersion i v) = Name i
  ∧ Description (SetVersion i v) = Description i
  ∧ Price (SetVersion i v) = Price i
  ∧ CreatedAt (SetVersion i v) = CreatedAt i
  ∧ UpdatedAt (SetVersion i v) = UpdatedAt i
  ∧ SetVersion (SetVersion i v) (Version i) = i.
Proof. by destruct i. Qed.

Lemma nonEmpty_true (s : string) : nonEmpty s = true ↔ s ≠ "".
Proof.
  unfold nonEmpty. rewrite negb_true_iff, bool_decide_eq_false. done.
Qed.

Lemma nonEmpty_false (s : string) : nonEmpty s = false ↔ s = "".
Proof.
  unfold nonEmpty. rewrite negb_false_iff, bool_decide_eq_true. done.
Qed.

(** The three checks decide the outcome on a fresh validator. *)
Lemma ValidateItem_HasErrors (i : Item) :
  HasErrors (ValidateItem New i)
  = negb (nonEmpty (Name i) && nonEmpty (Description i)
          && Between (Price i) 0.1 1000).
Proof.
  unfold ValidateItem.
  destruct (nonEmpty (Name i)), (nonEmpty (Description i)),
    (Between (Price i) 0.1 1000); reflexivity.
Qed.

(** C5: on an item with a name and a description, the prices 0.1 and
    1000 pass validation; the prices 0.09999 and 1000.01 leave an error
    in the validator, and so does an empty name or an empty
    description. *)
Theorem ValidateItem_boundaries (i : Item) :
  (Name i ≠ "" → Description i ≠ "" →
   Price i = 0.1%float ∨ Price i = 1000%float →
   HasErrors (ValidateItem New i) = false)
  ∧ (Price i = 0.09999%float ∨ Price i = 1000.01%float →
     HasErrors (ValidateItem New i) = true
     ∧ is_Some (Errors (ValidateItem New i) !! "price"))
  ∧ (Name i = "" ∨ Description i = "" →
     HasErrors (ValidateItem New i) = true).
Proof.
  rewrite ValidateItem_HasErrors. split; [|split].
  - intros Hn Hd Hp.
    apply nonEmpty_true in Hn, Hd. rewrite Hn, Hd.
    by destruct Hp as [-> | ->].
  - intros Hp. split.
    + rewrite !negb_true_iff, !andb_false_iff. right.
      by destruct Hp as [-> | ->].
    + unfold ValidateItem.
      destruct (nonEmpty (Name i)), (nonEmpty (Description i));
        destruct Hp as [-> | ->]; by eexists.
  - intros He. rewrite negb_true_iff, !andb_false_iff. left.
    destruct He as [He | He]; apply nonEmpty_false in He; auto.
Qed.

Lemma Check_other_key (v : Validator) (ok : bool) (key message k : string) :
  key ≠ k → Errors (Check v ok key message) !! k = Errors v !! k.
Proof.
  intros Hne. unfold Check, AddError.
  destruct ok; [done|].
  destruct (Errors v !! key); [done|].
  simpl. by rewrite lookup_insert_ne.
Qed.

Lemma Check_failed_key (v : Validator) (key message : string) :
  Errors (Check v false key message) !! key
  = Some (default message (Errors v !! key)).
Proof.
  unfold Check, AddError.
  destruct (Errors v !! key) eqn:E; simpl; [done|].
  by rewrite lookup_insert_eq.
Qed.

Lemma Check_keeps_key (v : Validator) (ok : bool) (key message k : string) :
  is_Some (Errors v !! k) → is_Some (Errors (Check v ok key message) !! k).
Proof.
  intros Hs. unfold Check, AddError.
  destruct ok; [done|].
  destruct (Errors v !! key) eqn:E; [done|]. simpl.
  destruct (decide (key = k)) as [->|Hne].
  - rewrite lookup_insert_eq. by eexists.
  - by rewrite lookup_insert_ne.
Qed.

Lemma HasErrors_key (v : Validator) (k : string) :
  is_Some (Errors v !! k) → HasErrors v = true.
Proof.
  intros [m Hm]. unfold HasErrors.
  rewrite negb_true_iff, bool_decide_eq_false.
  intros He. rewrite He, lookup_empty in Hm. done.
Qed.

(** C10: an empty description makes validation fail, and the error is
    recorded under the key "name"; validation adds no entry under the
    key "description" to any validator. *)
Theorem ValidateItem_description_key (v : Validator) (i : Item) :
  (Description i = "" →
   HasErrors (ValidateItem v i) = true
   ∧ is_Some (Errors (ValidateItem v i) !! "name")
   ∧ Errors (ValidateItem New i) !! "name" = Some "must be provided")
  ∧ Errors (ValidateItem v i) !! "description" = Errors v !! "description".
Proof.
  split.
  - intros Hd. apply nonEmpty_false in Hd.
    assert (Hname : ∀ v0, is_Some (Errors (ValidateItem v0 i) !! "name")).
    { intros v0. unfold ValidateItem. rewrite Hd.
      apply Check_keeps_key. rewrite Check_failed_key. by eexists. }
    split; [|split].
    + eapply HasErrors_key, Hname.
    + apply Hname.
    + unfold ValidateItem. rewrite Hd.
      rewrite Check_other_key by done.
      rewrite Check_failed_key.
      by destruct (nonEmpty (Name i)).
  - unfold ValidateItem. by rewrite !Check_other_key.
Qed.

End ItemLogic.

Lemma ValidateItem_boundaries_witness :
  HasErrors (ValidateItem New sword) = false
  ∧ HasErrors (ValidateItem New unnamed) = true.
Proof.
  split.
  - apply (ValidateItem_boundaries sword); [done | done | by left].
  - apply (ValidateItem_boundaries unnamed). by right.
Defined.

Lemma ValidateItem_description_key_witness :
  Errors (ValidateItem New unnamed) !! "name" = Some "must be provided".
Proof.
  apply (ValidateItem_description_key New unnamed). reflexivity.
Defined.

(** ** Provisioning of the items collection *)

Section Provisioning.
Import mongo main.

(** An existing collection: creation reports "already exists", which is
    swallowed; nothing is changed and the indexes are not touched. *)
Lemma CreateItemsCollection_exists (db : gmap string Collection)
    (c : Collection) (ix : option Error) :
  db !! constants.ItemsCollection = Some c →
  CreateItemsCollection
    {| onCreateCollection := None; onCreateIndexes := ix |} db
  = (db, None).
Proof.
  intros Hc. unfold CreateItemsCollection, CreateCollection. simpl.
  by rewrite Hc.
Qed.

(** A failure of the index creation is returned, and is fatal. *)
Lemma CreateItemsCollection_index_failure (db : gmap string Collection)
    (e : Error) :
  db !! constants.ItemsCollection = None →
  (CreateItemsCollection
     {| onCreateCollection := None; onCreateIndexes := Some e |} db).2
  = Some e
  ∧ provisionItems
      {| onCreateCollection := None; onCreateIndexes := Some e |} db
    = Fatal e.
Proof.
  intros Hc.
  unfold provisionItems, CreateItemsCollection, CreateCollection, CreateMany.
  simpl. by rewrite Hc.
Qed.

(** C4, on the code: every error of the collection creation is
    swallowed, not only "already exists".  With the server unreachable
    when the collection is to be created, [CreateItemsCollection]
    returns nil, no collection and no index exists, and [main] goes on
    to serve. *)
Theorem CreateItemsCollection_swallows_every_error :
  (∀ (e : Error) (ix : option Error) (db : gmap string Collection),
     CreateItemsCollection
       {| onCreateCollection := Some e; onCreateIndexes := ix |} db
     = (db, None))
  ∧ CreateItemsCollection
      {| onCreateCollection := Some ServerUnreachable;
         onCreateIndexes := None |} ∅
    = (∅, None)
  ∧ provisionItems
      {| onCreateCollection := Some ServerUnreachable;
         onCreateIndexes := None |} ∅
    = GoesOn ∅.
Proof. done. Qed.

End Provisioning.

(** ** The versioned repository *)

Section Repository.
Context {K E : Type} `{Countable K} {entity : Entity K E}.
Variable unset : K → bool.
Variable keyed : E → K → E.
Variable accepts : E → bool.
Variable clash : E → E → bool.
Variable fieldLe : string → E → E → bool.
Variable maxPageSize : Z.

Lemma Update_stale (s : gmap K E) (e d : E) :
  s !! identifier e = Some d → version d ≠ version e →
  Update keyed accepts clash s e = (s, Some ErrEditConflict).
Proof.
  intros Hd Hv. unfold Update. rewrite Hd.
  by rewrite bool_decide_eq_false_2.
Qed.

Lemma Update_absent (s : gmap K E) (e : E) :
  s !! identifier e = None →
  Update keyed accepts clash s e = (s, Some ErrEditConflict).
Proof. intros Hd. unfold Update. by rewrite Hd. Qed.

Lemma Update_failure (s s' : gmap K E) (e : E) (err : Error) :
  Update keyed accepts clash s e = (s', Some err) → s' = s.
Proof.
  unfold Update. intros Hu.
  repeat case_match; by simplify_eq.
Qed.

Lemma Update_success (s s' : gmap K E) (e : E) :
  Update keyed accepts clash s e = (s', None) →
  ∃ d, s !! identifier e = Some d
       ∧ version d = version e
       ∧ accepts (withVersion e (version e + 1)) = true
       ∧ s' = <[identifier e :=
                  keyed (withVersion e (version e + 1)) (identifier e)]> s.
Proof.
  unfold Update. intros Hu.
  destruct (s !! identifier e) as [d|] eqn:Hd; [|simplify_eq].
  case_bool_decide as Hv; [|simplify_eq].
  destruct (accepts _) eqn:Ha; simpl in Hu; [|simplify_eq].
  destruct (taken _ _ _ _); simpl in Hu; simplify_eq.
  by exists d.
Qed.

Lemma Create_success (s s' : gmap K E) (fresh id : K) (e : E) :
  Create unset keyed accepts clash s fresh e = (s', Ok id) →
  s !! id = None ∧ accepts e = true ∧ s' = <[id := keyed e id]> s.
Proof.
  unfold Create. intros Hc.
  destruct (s !! _) eqn:Hid; [simplify_eq|].
  destruct (accepts e); simpl in Hc; [|simplify_eq].
  destruct (taken _ _ _ _); simpl in Hc; by simplify_eq.
Qed.

Lemma Create_failure (s s' : gmap K E) (fresh : K) (e : E) (err : Error) :
  Create unset keyed accepts clash s fresh e = (s', Err err) → s' = s.
Proof.
  unfold Create. intros Hc.
  repeat case_match; by simplify_eq.
Qed.

Lemma insertSorted_length (le : E → E → bool) (x : E) (l : list E) :
  length (insertSorted le x l) = S (length l).
Proof.
  induction l as [|y l IH]; simpl; [done|].
  destruct (le x y); simpl; by rewrite ?IH.
Qed.

Lemma sortDocs_length (le : E → E → bool) (l : list E) :
  length (sortDocs le l) = length l.
Proof.
  induction l as [|x l IH]; simpl; [done|].
  rewrite insertSorted_length. by rewrite <- IH.
Qed.

Lemma ceilDiv_spec (n p : Z) :
  0 ≤ n → 1 ≤ p →
  (ceilDiv n p - 1) * p < n ≤ ceilDiv n p * p.
Proof.
  intros Hn Hp. unfold ceilDiv.
  pose proof (Z.div_mod (n + p - 1) p ltac:(lia)) as Hdm.
  pose proof (Z.mod_pos_bound (n + p - 1) p ltac:(lia)) as Hm.
  nia.
Qed.

Lemma insertSorted_perm (le : E → E → bool) (x : E) (l : list E) :
  insertSorted le x l ≡ₚ x :: l.
Proof.
  induction l as [|y l IH]; simpl; [done|].
  destruct (le x y); [done|]. rewrite IH. apply Permutation_swap.
Qed.

Lemma sortDocs_perm (le : E → E → bool) (l : list E) : sortDocs le l ≡ₚ l.
Proof.
  induction l as [|x l IH]; simpl; [done|].
  by rewrite insertSorted_perm, IH.
Qed.

Lemma matching_length (s : gmap K E) (flt : E → bool) :
  length (matching keyed s flt) = size (filter (passing keyed flt) s).
Proof.
  unfold matching.
  induction s as [|i x m Hi Hfirst IH] using map_first_key_ind.
  - by rewrite map_to_list_empty, map_filter_empty, map_size_empty.
  - rewrite (map_to_list_insert_first_key _ _ _ Hi Hfirst).
    rewrite fmap_cons. cbn [List.filter fst snd].
    destruct (flt (keyed x i)) eqn:Hflt.
    + rewrite map_filter_insert_True by done.
      rewrite map_size_insert_None
        by (apply map_lookup_filter_None_2; by left).
      cbn [length]. by rewrite IH.
    + rewrite map_filter_insert_False
        by (unfold passing; cbn; congruence).
      by rewrite delete_id.
Qed.

Lemma matching_elem_of (s : gmap K E) (flt : E → bool) (e : E) :
  e ∈ matching keyed s flt
  ↔ ∃ k d, s !! k = Some d ∧ e = keyed d k ∧ flt e = true.
Proof.
  unfold matching. rewrite list_elem_of_In, filter_In, <- list_elem_of_In.
  rewrite list_elem_of_fmap. split.
  - intros [([k d] & -> & Hkd) Hflt].
    apply elem_of_map_to_list in Hkd. by exists k, d.
  - intros (k & d & Hkd & -> & Hflt). split; [|done].
    exists (k, d). split; [done|]. by apply elem_of_map_to_list.
Qed.

(** A request outside the bounds is refused. *)
Lemma GetAll_refused (s : gmap K E) (flt : E → bool) (f : Filters) :
  Page f < 1 ∨ PageSize f < 1 ∨ maxPageSize < PageSize f →
  GetAll keyed fieldLe maxPageSize s flt f = Err ErrStore.
Proof.
  intros Hout. unfold GetAll.
  destruct (1 <=? Page f) eqn:H1; [|done].
  destruct (1 <=? PageSize f) eqn:H2; [|done].
  destruct (PageSize f <=? maxPageSize) eqn:H3; [|done].
  apply Z.leb_le in H1, H2, H3. lia.
Qed.

(** C9: for a listing with a positive page and a page size P from 1 to
    the cap, where N documents of the store pass the filter: the metadata
    reports N records and ceil(N/P) pages, that is the least number of
    pages of size P that hold N documents; the page holds documents of
    the store that pass the filter, as many as are left of the N after
    the pages before it, at most P; a page beyond the last is an empty
    sequence with the same totals, not an error; with no matching
    document the totals are zero. *)
Theorem GetAll_pagination (s : gmap K E) (flt : E → bool) (f : Filters) :
  1 ≤ Page f → 1 ≤ PageSize f ≤ maxPageSize →
  ∃ (page : list E) (md : Metadata),
    GetAll keyed fieldLe maxPageSize s flt f = Ok (page, md)
    ∧ TotalRecords md = Z.of_nat (size (filter (passing keyed flt) s))
    ∧ CurrentPage md = Page f
    ∧ PerPage md = PageSize f
    ∧ (TotalPages md - 1) * PageSize f < TotalRecords md
                                       ≤ TotalPages md * PageSize f
    ∧ Z.of_nat (length page)
      = Z.max 0 (Z.min (PageSize f)
                   (TotalRecords md - (Page f - 1) * PageSize f))
    ∧ (∀ e, e ∈ page →
         ∃ k d, s !! k = Some d ∧ e = keyed d k ∧ flt e = true)
    ∧ (TotalPages md < Page f → page = [])
    ∧ (TotalRecords md = 0 → page = [] ∧ TotalPages md = 0).
Proof.
  intros Hpage [Hsize Hcap]. unfold GetAll.
  rewrite (proj2 (Z.leb_le 1 (Page f)) Hpage).
  rewrite (proj2 (Z.leb_le 1 (PageSize f)) Hsize).
  rewrite (proj2 (Z.leb_le (PageSize f) maxPageSize) Hcap).
  cbn [andb].
  destruct (sortKey (Sort f)) as [desc field].
  set (le := if desc then _ else _).
  pose proof (matching_length s flt) as Hlen.
  pose proof (matching_elem_of s flt) as Hin.
  set (docs := matching keyed s flt) in *.
  eexists _, _. split; [reflexivity|]. cbn [TotalRecords CurrentPage
    PerPage TotalPages].
  rewrite <- Hlen.
  pose proof (ceilDiv_spec (Z.of_nat (length docs)) (PageSize f)
                ltac:(lia) Hsize) as Hceil.
  pose proof (sortDocs_length le docs) as Hsorted.
  split; [done|]. split; [done|]. split; [done|]. split; [lia|].
  split; [|split; [|split]].
  - rewrite length_take, length_drop, Hsorted.
    assert (0 ≤ (Page f - 1) * PageSize f) by nia. lia.
  - intros e He. apply Hin.
    apply subseteq_take, subseteq_drop in He.
    by rewrite sortDocs_perm in He.
  - intros Hbeyond. rewrite drop_ge; [by rewrite take_nil|].
    rewrite Hsorted. nia.
  - intros Hzero.
    assert (docs = []) as Hnil by (destruct docs; [done | simpl in *; lia]).
    rewrite Hnil. simpl. rewrite drop_nil, take_nil. split; [done|].
    unfold ceilDiv.
    replace (0 + PageSize f - 1) with (PageSize f - 1) by lia.
    apply Z.div_small. lia.
Qed.

End Repository.

(** ** The item handlers *)

Section Handlers.
Import main.

Lemma itemsGetByID_Some (s : gmap ObjectID Item) (id : ObjectID) (d : Item) :
  s !! id = Some d → itemsGetByID s id = Ok (withID d id).
Proof. intros Hd. unfold itemsGetByID, GetByID. by rewrite Hd. Qed.

Lemma itemsGetByID_None (s : gmap ObjectID Item) (id : ObjectID) :
  s !! id = None → itemsGetByID s id = Err ErrRecordNotFound.
Proof. intros Hd. unfold itemsGetByID, GetByID. by rewrite Hd. Qed.

Lemma edited_ID (w : World) (read : Item) (input : update.input) :
  GetID (edited w read input) = ID read.
Proof.
  unfold edited, merge.
  by destruct (update.Name input), (update.Description input),
    (update.Price input).
Qed.

Lemma edited_Version (w : World) (read : Item) (input : update.input) :
  GetVersion (edited w read input) = Version read.
Proof.
  unfold edited, merge.
  by destruct (update.Name input), (update.Description input),
    (update.Price input).
Qed.

(** The run of [updateItemHandler] on a request with a well-formed id
    and body, whose item is in the store, up to the repository write. *)
Lemma updateItemHandler_found (w : World) (id : ObjectID)
    (input : update.input) (d : Item) :
  atFirstCall w !! id = Some d →
  let item := edited w (withID d id) input in
  run w (updateItemHandler (Some id) (Some input))
  = if HasErrors (ValidateItem New item)
    then (tick (arrive (OpGetByID id) w),
          FailedValidationResponse (Errors (ValidateItem New item)))
    else
      let w2 := arrive (OpUpdate item) (tick (arrive (OpGetByID id) w)) in
      match itemsUpdate (store w2) item with
      | (s, Some ErrEditConflict) => (withStore w2 s, EditConflictResponse)
      | (s, Some _) => (withStore w2 s, ServerErrorResponse)
      | (s, None) =>
          (withStore w2 s,
           if jsonOK w then OKResponse "Item updated successfully"
           else ServerErrorResponse)
      end.
Proof.
  intros Hd item. unfold updateItemHandler.
  cbn [run exec]. cbv zeta.
  change (store (arrive (OpGetByID id) w)) with (atFirstCall w).
  rewrite (itemsGetByID_Some _ _ _ Hd).
  cbn [run exec]. cbv zeta.
  change (setUpdatedAt (merge (withID d id) input)
            (clock (arrive (OpGetByID id) w)
               (ticks (arrive (OpGetByID id) w)))) with item.
  destruct (HasErrors (ValidateItem New item)); [done|].
  cbn [run exec]. cbv zeta.
  destruct (itemsUpdate _ item) as [s [[]|]]; try done.
  simpl. by destruct (jsonOK w).
Qed.

Lemma store_second_call (w : World) (op1 op2 : RepoOp) :
  store (arrive op2 (tick (arrive op1 w))) = atSecondCall w.
Proof. done. Qed.

(** C7, as the code has it: a create request that fails validation has
    made no repository call; an update request that fails validation
    has made exactly one, the [GetByID] that fetched the item to edit,
    and no write: the store is as the other writers left it. *)
Theorem validation_failure_repository_calls (w w' : World)
    (errors : gmap string string) :
  (∀ body,
     run w (createItemHandler body) = (w', FailedValidationResponse errors) →
     ops w' = ops w ∧ store w' = store w)
  ∧ (∀ idParam body,
       run w (updateItemHandler idParam body)
       = (w', FailedValidationResponse errors) →
       ∃ id, idParam = Some id
             ∧ ops w' = ops w ++ [OpGetByID id]
             ∧ store w' = atFirstCall w).
Proof.
  split.
  - intros [input|] Hrun; [|done].
    unfold createItemHandler in Hrun. cbn [run exec] in Hrun.
    cbv zeta in Hrun.
    destruct (HasErrors _); cbn [run exec] in Hrun; cbv zeta in Hrun.
    { by injection Hrun as <- _. }
    destruct (itemsCreate _ _ _) as [s [newid|e]];
      cbn [run exec] in Hrun; [|done].
    by destruct (jsonOK _).
  - intros [id|] body Hrun; [|done]. exists id. split; [done|].
    destruct (atFirstCall w !! id) as [d|] eqn:Hd.
    + destruct body as [input|].
      * rewrite (updateItemHandler_found _ _ _ _ Hd) in Hrun.
        destruct (HasErrors _); [by injection Hrun as <- _|].
        cbv zeta in Hrun.
        destruct (itemsUpdate _ _) as [s [[]|]]; try done.
        by destruct (jsonOK w).
      * unfold updateItemHandler in Hrun. cbn [run exec] in Hrun.
        cbv zeta in Hrun.
        change (store (arrive (OpGetByID id) w)) with (atFirstCall w)
          in Hrun.
        by rewrite (itemsGetByID_Some _ _ _ Hd) in Hrun.
    + unfold updateItemHandler in Hrun. cbn [run exec] in Hrun.
      cbv zeta in Hrun.
      change (store (arrive (OpGetByID id) w)) with (atFirstCall w) in Hrun.
      by rewrite (itemsGetByID_None _ _ Hd) in Hrun.
Qed.

Lemma itemsUpdate_success (s s' : gmap ObjectID Item) (e : Item) :
  itemsUpdate s e = (s', None) →
  ∃ d, s !! ID e = Some d
       ∧ Version d = Version e
       ∧ s' = <[ID e := withID (SetVersion e (Version e + 1)) (ID e)]> s.
Proof.
  intros Hup. apply Update_success in Hup as (d & Hd & Hv & _ & ->).
  by exists d.
Qed.

(** C1: an [Update] with a version that is not the stored one (or for
    a document that is gone) fails with [ErrEditConflict] and leaves the
    store as it was; a successful update by another writer is such a
    change of the stored version, to [v + 1]; and when the version the
    handler read is no longer the stored one at its write, the handler
    answers with the edit-conflict response, having written nothing. *)
Theorem stale_update_is_edit_conflict :
  (∀ (s : gmap ObjectID Item) (e : Item),
     (∀ d, s !! GetID e = Some d → Version d ≠ Version e) →
     itemsUpdate s e = (s, Some ErrEditConflict))
  ∧ (∀ (s s' : gmap ObjectID Item) (other d : Item),
       s !! GetID other = Some d →
       itemsUpdate s other = (s', None) →
       ∃ d', s' !! GetID other = Some d' ∧ Version d' = Version d + 1)
  ∧ (∀ (w : World) (id : ObjectID) (input : update.input) (read : Item),
       atFirstCall w !! id = Some read →
       (∀ d, atSecondCall w !! id = Some d → Version d ≠ Version read) →
       HasErrors (ValidateItem New (edited w (withID read id) input))
       = false →
       ∃ w', run w (updateItemHandler (Some id) (Some input))
             = (w', EditConflictResponse)
             ∧ store w' = atSecondCall w
             ∧ ops w' = ops w ++ [OpGetByID id;
                                  OpUpdate (edited w (withID read id) input)]).
Proof.
  assert (Hstale : ∀ (s : gmap ObjectID Item) (e : Item),
     (∀ d, s !! GetID e = Some d → Version d ≠ Version e) →
     itemsUpdate s e = (s, Some ErrEditConflict)).
  { intros s e Hv. unfold itemsUpdate.
    destruct (s !! GetID e) as [d|] eqn:Hd.
    - by apply (Update_stale _ _ _ _ _ d), Hv.
    - by apply Update_absent. }
  split; [exact Hstale|]. split.
  - intros s s' other d Hd Hup.
    apply itemsUpdate_success in Hup as (d0 & Hd0 & Hv & ->).
    unfold GetID in *. rewrite Hd in Hd0. injection Hd0 as <-.
    eexists. split; [apply lookup_insert_eq|].
    simpl. lia.
  - intros w id input read Hread Hmoved Hvalid.
    rewrite (updateItemHandler_found _ _ _ _ Hread). cbv zeta.
    rewrite Hvalid, store_second_call.
    rewrite Hstale.
    + eexists. split; [reflexivity|]. split; [done|].
      simpl. by rewrite <- app_assoc.
    + rewrite edited_ID, edited_Version. exact Hmoved.
Qed.

(** C3: after an update request that succeeded, the stored item has,
    for each of name, description and price, the supplied value, or the
    value read from the store when the body has none; its updatedAt is
    the reading of the clock; its version is the stored version plus 1;
    id and createdAt are as read. *)
Theorem update_is_partial (w w' : World) (id : ObjectID)
    (input : update.input) :
  run w (updateItemHandler (Some id) (Some input))
  = (w', OKResponse "Item updated successfully") →
  ∃ read before after : Item,
    itemsGetByID (atFirstCall w) id = Ok read
    ∧ atSecondCall w !! id = Some before
    ∧ store w' !! id = Some after
    ∧ Name after = default (Name read) (update.Name input)
    ∧ Description after
      = default (Description read) (update.Description input)
    ∧ Price after = default (Price read) (update.Price input)
    ∧ UpdatedAt after = clock w (ticks w)
    ∧ Version before = Version read
    ∧ Version after = Version before + 1
    ∧ ID after = id
    ∧ CreatedAt after = CreatedAt read.
Proof.
  intros Hrun.
  destruct (atFirstCall w !! id) as [d|] eqn:Hd.
  - rewrite (updateItemHandler_found _ _ _ _ Hd) in Hrun.
    cbv zeta in Hrun. rewrite store_second_call in Hrun.
    destruct (HasErrors _); [done|].
    destruct (itemsUpdate _ _) as [s [[]|]] eqn:Hup; try done.
    injection Hrun as <- _.
    apply itemsUpdate_success in Hup as (before & Hb & Hv & ->).
    pose proof (edited_ID w (withID d id) input) as Hid.
    pose proof (edited_Version w (withID d id) input) as Hver.
    unfold GetID, GetVersion in Hid, Hver.
    rewrite Hid in Hb |- *. rewrite Hver in Hv |- *.
    cbn [ID Version withID] in Hb, Hv |- *.
    exists (withID d id), before. eexists.
    split; [by apply itemsGetByID_Some|].
    split; [done|].
    split; [apply lookup_insert_eq|].
    unfold edited, merge.
    destruct (update.Name input), (update.Description input),
      (update.Price input); simpl; repeat split; try done; lia.
  - unfold updateItemHandler in Hrun. cbn [run exec] in Hrun.
    cbv zeta in Hrun.
    change (store (arrive (OpGetByID id) w)) with (atFirstCall w) in Hrun.
    by rewrite (itemsGetByID_None _ _ Hd) in Hrun.
Qed.

(** What a successful creation stores: version 1, createdAt the first
    reading of the clock and updatedAt the second. *)
Lemma createItemHandler_stored (w w' : World) (body : option create.input)
    (message : string) (id : ObjectID) :
  run w (createItemHandler body) = (w', CreatedResponse message id) →
  ∃ stored : Item,
    store w' !! id = Some stored
    ∧ Version stored = 1
    ∧ CreatedAt stored = clock w (ticks w)
    ∧ UpdatedAt stored = clock w (S (ticks w)).
Proof.
  intros Hrun. destruct body as [input|]; [|done].
  unfold createItemHandler in Hrun. cbn [run exec] in Hrun.
  cbv zeta in Hrun.
  destruct (HasErrors _); cbn [run exec] in Hrun; cbv zeta in Hrun;
    [done|].
  destruct (itemsCreate _ _ _) as [s [newid|e]] eqn:Hc;
    cbn [run exec] in Hrun; [|done].
  simpl in Hrun. destruct (jsonOK w); [|done].
  injection Hrun as <- _ <-.
  apply Create_success in Hc as (_ & _ & ->).
  eexists. split; [apply lookup_insert_eq|]. done.
Qed.

End Handlers.

(** ** The handlers on concrete requests *)

Section Scenarios.
Import main Scenario.

(** C6, on the code: the handler reads the clock once for createdAt and
    once more for updatedAt.  With readings of ...999999900 and
    ...000000050 the creation succeeds and stores version 1, but a
    createdAt that differs from updatedAt. *)
Theorem createItemHandler_reads_clock_twice :
  ∃ (w' : World) (stored : Item),
    run atMidnight (createItemHandler (Some potion))
    = (w', CreatedResponse "Item created successfully" 7%N)
    ∧ store w' !! 7%N = Some stored
    ∧ Version stored = 1
    ∧ CreatedAt stored = 1700000000999999900
    ∧ UpdatedAt stored = 1700000001000000050
    ∧ CreatedAt stored ≠ UpdatedAt stored.
Proof.
  destruct (run atMidnight (createItemHandler (Some potion)))
    as [w' r] eqn:Hrun.
  assert (Hr : r = CreatedResponse "Item created successfully" 7%N).
  { apply (f_equal snd) in Hrun. simpl in Hrun. rewrite <- Hrun.
    vm_compute. reflexivity. }
  subst r.
  destruct (createItemHandler_stored _ _ _ _ _ Hrun)
    as (stored & Hs & Hv & Hc & Hu).
  exists w', stored. repeat split; try done.
  rewrite Hc, Hu. vm_compute. discriminate.
Qed.

(** C7, as stated, fails for updates: this request is rejected by the
    validation of its price, after the repository was asked for the
    item. *)
Lemma update_validation_follows_read :
  (∃ errors, rejected.2 = FailedValidationResponse errors)
  ∧ ops rejected.1 = [OpGetByID 7%N]
  ∧ ops rejected.1 ≠ ops quiet.
Proof.
  split; [|split].
  - eexists. vm_compute. reflexivity.
  - vm_compute. reflexivity.
  - vm_compute. discriminate.
Qed.

End Scenarios.

(** ** The replica synchronization consumer *)

Section Replica.
Import rabbitmq.









End Replica.

Section Feeds.
Import rabbitmq Feed.

(** The failing input of C2, evaluated: with version 3 stored, the event
    of version 5 is left for redelivery and the replica is unchanged;
    after versions 3, 2 and 5 the replica still has the fields and the
    version of the first, not those of version 5. *)
Lemma newer_event_is_requeued :
  handleDelivery (StartConsumer ∅ [v3]) v5 = (StartConsumer ∅ [v3], Requeue)
  ∧ StartConsumer ∅ [v3; v2; v5] !! 42
    = Some {| UserID := 42; UserName := "carol";
              Permissions := ["catalog:read"]; UserVersion := 3 |}
  ∧ StartConsumer ∅ [v3; v2; v5] !! 42
    ≠ Some {| UserID := 42; UserName := "caroline";
              Permissions := ["catalog:read"; "catalog:write"];
              UserVersion := 5 |}.
Proof.
  split; [by vm_compute|].
  assert (Hrun : StartConsumer ∅ [v3; v2; v5] !! 42
                 = Some {| UserID := 42; UserName := "carol";
                           Permissions := ["catalog:read"];
                           UserVersion := 3 |}) by (by vm_compute).
  split; [exact Hrun|]. rewrite Hrun. discriminate.
Qed.


End Feeds.

(** ** The theorems at concrete requests *)

Section Instances.
Import main Scenario.

Lemma stale_update_is_edit_conflict_witness :
  itemsUpdate after sword = (after, Some ErrEditConflict)
  ∧ (∃ d', after !! GetID (setPrice sword 20) = Some d'
           ∧ Version d' = Version sword + 1)
  ∧ (∃ w', run raced (updateItemHandler (Some 7%N) (Some (priceOnly 9)))
           = (w', EditConflictResponse)
           ∧ store w' = atSecondCall raced
           ∧ ops w' = ops raced
                      ++ [OpGetByID 7%N;
                          OpUpdate (edited raced (withID sword 7%N)
                                      (priceOnly 9))]).
Proof.
  split; [|split].
  - apply (proj1 stale_update_is_edit_conflict after sword).
    intros d Hd. vm_compute in Hd. injection Hd as <-.
    vm_compute. discriminate.
  - apply (proj1 (proj2 stale_update_is_edit_conflict)
             before after (setPrice sword 20) sword).
    + vm_compute. reflexivity.
    + vm_compute. reflexivity.
  - apply (proj2 (proj2 stale_update_is_edit_conflict)
             raced 7%N (priceOnly 9) sword).
    + vm_compute. reflexivity.
    + intros d Hd. vm_compute in Hd. injection Hd as <-.
      vm_compute. discriminate.
    + vm_compute. reflexivity.
Defined.

Lemma update_is_partial_witness :
  ∃ stored : Item,
    store repriced.1 !! 7%N = Some stored
    ∧ Name stored = "Sword"
    ∧ Description stored = "A sharp blade"
    ∧ Price stored = 9%float
    ∧ UpdatedAt stored = 5000
    ∧ Version stored = 2.
Proof.
  destruct (update_is_partial quiet repriced.1 7%N (priceOnly 9))
    as (read & old & new & Hread & Hbefore & Hafter
        & Hn & Hd & Hp & Hu & Hvb & Hva & _).
  { vm_compute. reflexivity. }
  exists new.
  vm_compute in Hread. injection Hread as <-.
  vm_compute in Hbefore. injection Hbefore as <-.
  split; [exact Hafter|].
  split; [exact Hn|]. split; [exact Hd|]. split; [exact Hp|].
  split; [exact Hu|]. rewrite Hva. reflexivity.
Defined.

Lemma validation_failure_repository_calls_witness :
  (ops unpriced.1 = ops quiet ∧ store unpriced.1 = store quiet)
  ∧ (∃ id, Some 7%N = Some id
           ∧ ops rejected.1 = ops quiet ++ [OpGetByID id]
           ∧ store rejected.1 = atFirstCall quiet).
Proof.
  split.
  - apply (proj1 (validation_failure_repository_calls quiet unpriced.1
                    (Errors (ValidateItem New
                               {| ID := 0%N; Name := "Shield";
                                  Description := ""; Price := 0;
                                  Version := 1; CreatedAt := 5000;
                                  UpdatedAt := 5010 |})))
             (Some {| create.Name := "Shield"; create.Description := "";
                      create.Price := 0 |})).
    vm_compute. reflexivity.
  - apply (proj2 (validation_failure_repository_calls quiet rejected.1
                    (Errors (ValidateItem New
                               (edited quiet sword (priceOnly 0)))))
             (Some 7%N) (Some (priceOnly 0))).
    vm_compute. reflexivity.
Defined.

Lemma GetAll_pagination_witness :
  ∃ (page : list Item) (md : Metadata),
    GetAll withID byName 100 shelf (λ _, true)
      {| Page := 3; PageSize := 2; Sort := "-name";
         SortSafelist := ["name"; "-name"] |}
    = Ok (page, md)
    ∧ TotalRecords md = 3
    ∧ TotalPages md = 2
    ∧ page = [].
Proof.
  destruct (GetAll_pagination withID byName 100 shelf (λ _, true)
              {| Page := 3; PageSize := 2; Sort := "-name";
                 SortSafelist := ["name"; "-name"] |})
    as (page & md & Hrun & Hn & _ & _ & Hceil & _ & _ & Hbeyond & _);
    [simpl; lia | simpl; lia |].
  exists page, md. split; [exact Hrun|].
  assert (Hthree : TotalRecords md = 3).
  { rewrite Hn. unfold shelf.
    rewrite map_filter_id by done.
    rewrite !map_size_insert_None, map_size_singleton; [done|..];
      by simplify_map_eq. }
  simpl in Hceil. rewrite Hthree in Hceil.
  assert (TotalPages md = 2) as Hpages by lia.
  split; [exact Hthree|]. split; [exact Hpages|].
  apply Hbeyond. simpl. lia.
Defined.

End Instances.

(** * Further properties *)

(** ** Validation, in full *)

Section Validation.
Import main.

Lemma valid_item (i : Item) :
  HasErrors (ValidateItem New i) = false
  ↔ Name i ≠ "" ∧ Description i ≠ "" ∧ Between (Price i) 0.1 1000 = true.
Proof.
  rewrite ValidateItem_HasErrors, negb_false_iff.
  rewrite !andb_true_iff, !nonEmpty_true. tauto.
Qed.

(** X1: validation passes exactly for the items that have a name, a
    description and a price with 0.1 ≤ price ≤ 1000 (so not for a NaN). *)
Theorem ValidateItem_accepts_iff (i : Item) :
  HasErrors (ValidateItem New i) = false
  ↔ Name i ≠ "" ∧ Description i ≠ ""
    ∧ PrimFloat.leb 0.1 (Price i) = true
    ∧ PrimFloat.leb (Price i) 1000 = true.
Proof.
  rewrite valid_item. unfold Between. rewrite andb_true_iff. tauto.
Qed.

(** X2: what validation reports on a fresh validator: one entry "name"
    when the name or the description is empty, whichever it is, one entry
    "price" when the price is out of range, and nothing else. *)
Theorem ValidateItem_reports (i : Item) :
  Errors (ValidateItem New i)
  = (if nonEmpty (Name i) && nonEmpty (Description i)
     then ∅ else {[ "name" := "must be provided" ]})
    ∪ (if Between (Price i) 0.1 1000 then ∅
       else {[ "price" :=
               "must be greater or equal to 0.1 and lower or equal to 1000" ]}).
Proof.
  unfold ValidateItem.
  destruct (nonEmpty (Name i)), (nonEmpty (Description i)),
    (Between (Price i) 0.1 1000);
    cbn [Check andb]; unfold AddError; cbn [Errors New];
    repeat (rewrite ?lookup_insert_ne, ?lookup_insert_eq, ?lookup_empty
              by done; cbn [Errors]);
    rewrite ?(left_id_L ∅ (∪)), ?(right_id_L ∅ (∪)), ?insert_empty;
    try done; by rewrite insert_union_singleton_r.
Qed.

Lemma merge_fields (read : Item) (input : update.input) :
  Name (merge read input) = default (Name read) (update.Name input)
  ∧ Description (merge read input)
    = default (Description read) (update.Description input)
  ∧ Price (merge read input) = default (Price read) (update.Price input)
  ∧ ID (merge read input) = ID read
  ∧ Version (merge read input) = Version read
  ∧ CreatedAt (merge read input) = CreatedAt read
  ∧ UpdatedAt (merge read input) = UpdatedAt read.
Proof.
  unfold merge.
  by destruct (update.Name input), (update.Description input),
    (update.Price input).
Qed.

(** X3: an update is validated on the values the item will have: for
    each field the supplied value, or the stored one when the body has
    none.  The timestamp of the update plays no part. *)
Theorem update_validates_effective_fields (read : Item)
    (input : update.input) (now : Time) :
  HasErrors (ValidateItem New (setUpdatedAt (merge read input) now)) = false
  ↔ default (Name read) (update.Name input) ≠ ""
    ∧ default (Description read) (update.Description input) ≠ ""
    ∧ Between (default (Price read) (update.Price input)) 0.1 1000 = true.
Proof.
  rewrite valid_item.
  destruct (merge_fields read input) as (Hn & Hd & Hp & _).
  cbn [Name Description Price setUpdatedAt].
  by rewrite Hn, Hd, Hp.
Qed.

Lemma valid_item_accepted (i : Item) :
  HasErrors (ValidateItem New i) = false →
  1 ≤ Version i ≤ MaxInt32 →
  itemsValidator i = true.
Proof.
  intros Hok Hv. apply valid_item in Hok as (_ & _ & Hp).
  unfold Between in Hp. apply andb_true_iff in Hp as [Hlo _].
  unfold itemsValidator. rewrite Hlo, andb_true_r.
  apply andb_true_iff. split; apply Z.leb_le; lia.
Qed.

(** X4: the schema that [CreateItemsCollection] installs accepts the
    document of an item, whose version is an int32, exactly when its
    version is at least 1 and its price at least 0.1; so an item that
    passed validation with a version of at least 1 is never refused by
    the schema, whether or not it carries an id. *)
Theorem validated_item_fits_schema (i : Item) :
  Version i ≤ MaxInt32 →
  schema.accepts jsonSchema (schema.Marshal i) = itemsValidator i
  ∧ (HasErrors (ValidateItem New i) = false → 1 ≤ Version i →
     schema.accepts jsonSchema (schema.Marshal i) = true).
Proof.
  intros Hint.
  assert (Heq : schema.accepts jsonSchema (schema.Marshal i)
                = itemsValidator i).
  { unfold itemsValidator.
    rewrite (proj2 (Z.leb_le (Version i) MaxInt32) Hint), andb_true_r.
    unfold schema.Marshal. destruct i as [id n d p v c u].
    cbn [ID Name Description Price Version CreatedAt UpdatedAt].
    destruct (bool_decide (id = 0%N)); cbn [app]; vm_compute;
      destruct (PrimFloat.leb _ p), v as [|[q|q|]|q]; reflexivity. }
  split; [exact Heq|]. intros Hok Hv. rewrite Heq.
  apply valid_item_accepted; [done | lia].
Qed.

End Validation.

Section ValidationInstances.
Import main.

Lemma ValidateItem_accepts_iff_witness :
  HasErrors (ValidateItem New sword) = false.
Proof.
  apply (proj2 (ValidateItem_accepts_iff sword)).
  repeat split; by vm_compute.
Defined.

Lemma update_validates_effective_fields_witness :
  HasErrors (ValidateItem New (setUpdatedAt (merge sword (priceOnly 9)) 5000))
  = false.
Proof.
  apply (proj2 (update_validates_effective_fields sword (priceOnly 9) 5000)).
  repeat split; by vm_compute.
Defined.

Lemma validated_item_fits_schema_witness :
  schema.accepts jsonSchema (schema.Marshal sword) = true.
Proof.
  apply (validated_item_fits_schema sword).
  - by vm_compute.
  - by vm_compute.
  - by vm_compute.
Defined.

End ValidationInstances.

(** ** Provisioning, run by run *)

Section ProvisioningRuns.
Import mongo main Cases.

Lemma CreateItemsCollection_present (f : Faults)
    (db : gmap string Collection) (c : Collection) :
  db !! constants.ItemsCollection = Some c →
  CreateItemsCollection f db = (db, None).
Proof.
  intros Hc. unfold CreateItemsCollection, CreateCollection.
  destruct (onCreateCollection f); [done|]. by rewrite Hc.
Qed.

(** X5: on a database without an items collection, and with no command
    failing, provisioning returns nil and leaves the collection with the
    schema as its validator and with the three indexes of [indexModels]
    (unique on name, unique on description, text on name). *)
Theorem CreateItemsCollection_fresh (f : Faults)
    (db : gmap string Collection) :
  onCreateCollection f = None → onCreateIndexes f = None →
  db !! constants.ItemsCollection = None →
  CreateItemsCollection f db
  = (<[constants.ItemsCollection :=
         {| Validator := Some itemsSchema; Indexes := indexModels |}]> db,
     None).
Proof.
  intros Hcc Hci Hnone.
  unfold CreateItemsCollection, CreateCollection, CreateMany.
  rewrite Hcc, Hnone, Hci. rewrite lookup_insert_eq. simpl.
  by rewrite insert_insert_eq.
Qed.

(** X6: provisioning touches no other collection than "items", whatever
    fails. *)
Theorem CreateItemsCollection_frame (f : Faults)
    (db : gmap string Collection) (name : string) :
  name ≠ constants.ItemsCollection →
  (CreateItemsCollection f db).1 !! name = db !! name.
Proof.
  intros Hne. unfold CreateItemsCollection, CreateCollection, CreateMany.
  destruct (onCreateCollection f); [done|].
  destruct (db !! constants.ItemsCollection); [done|].
  destruct (onCreateIndexes f); simpl;
    by rewrite ?lookup_insert_ne by done.
Qed.

(** X7: provisioning returns an error in one case only: the collection
    was missing, its creation went through, and the creation of the
    indexes failed; the error is that of the indexes. *)
Theorem CreateItemsCollection_error_iff (f : Faults)
    (db : gmap string Collection) (e : Error) :
  (CreateItemsCollection f db).2 = Some e
  ↔ onCreateCollection f = None
    ∧ db !! constants.ItemsCollection = None
    ∧ onCreateIndexes f = Some e.
Proof.
  unfold CreateItemsCollection, CreateCollection, CreateMany.
  destruct (onCreateCollection f) as [e0|];
    [simpl; split; [done | by intros (? & _)]|].
  destruct (db !! constants.ItemsCollection);
    [simpl; split; [done | by intros (_ & ? & _)]|].
  destruct (onCreateIndexes f) as [e1|]; simpl.
  - split; [by intros [= ->] | by intros (_ & _ & [= ->])].
  - split; [done | by intros (_ & _ & ?)].
Qed.

Lemma CreateItemsCollection_leaves_collection (f : Faults)
    (db : gmap string Collection) :
  onCreateCollection f = None →
  is_Some ((CreateItemsCollection f db).1 !! constants.ItemsCollection).
Proof.
  intros Hcc. unfold CreateItemsCollection, CreateCollection, CreateMany.
  rewrite Hcc.
  destruct (db !! constants.ItemsCollection) eqn:Hdb; simpl.
  { rewrite Hdb. by eexists. }
  destruct (onCreateIndexes f); simpl; rewrite lookup_insert_eq;
    by eexists.
Qed.

(** X8: once a run got past the creation of the collection, every later
    run returns nil and changes nothing, whatever fails then. *)
Theorem CreateItemsCollection_again (f f' : Faults)
    (db : gmap string Collection) :
  onCreateCollection f = None →
  CreateItemsCollection f' (CreateItemsCollection f db).1
  = ((CreateItemsCollection f db).1, None).
Proof.
  intros Hcc.
  destruct (CreateItemsCollection_leaves_collection f db Hcc) as [c Hc].
  by apply (CreateItemsCollection_present _ _ c).
Qed.

(** X9: a run in which the indexes fail is fatal, but it leaves the
    collection created, without index; every later startup then goes on
    with that collection, and never creates the indexes. *)
Theorem failed_indexes_are_never_created (f f' : Faults)
    (db : gmap string Collection) (e : Error) :
  onCreateCollection f = None →
  db !! constants.ItemsCollection = None →
  onCreateIndexes f = Some e →
  provisionItems f db = Fatal e
  ∧ (CreateItemsCollection f db).1 !! constants.ItemsCollection
    = Some {| Validator := Some itemsSchema; Indexes := [] |}
  ∧ provisionItems f' (CreateItemsCollection f db).1
    = GoesOn (CreateItemsCollection f db).1.
Proof.
  intros Hcc Hnone Hci.
  assert (Hrun : CreateItemsCollection f db
                 = (<[constants.ItemsCollection :=
                        {| Validator := Some itemsSchema; Indexes := [] |}]> db,
                    Some e)).
  { unfold CreateItemsCollection, CreateCollection, CreateMany.
    by rewrite Hcc, Hnone, Hci. }
  split; [|split].
  - unfold provisionItems. by rewrite Hrun.
  - rewrite Hrun. apply lookup_insert_eq.
  - destruct (CreateItemsCollection_leaves_collection f db Hcc) as [c Hc].
    unfold provisionItems.
    by rewrite (CreateItemsCollection_present f' _ c Hc).
Qed.

End ProvisioningRuns.

Section ProvisioningInstances.
Import mongo main Cases.

Lemma CreateItemsCollection_fresh_witness :
  (CreateItemsCollection calm usersOnly).2 = None
  ∧ ∃ c, (CreateItemsCollection calm usersOnly).1
           !! constants.ItemsCollection = Some c
         ∧ Indexes c = indexModels.
Proof.
  rewrite (CreateItemsCollection_fresh calm usersOnly);
    [| done | done | by vm_compute].
  split; [done|].
  eexists. split; [apply lookup_insert_eq | done].
Defined.

Lemma CreateItemsCollection_frame_witness :
  (CreateItemsCollection indexesDown usersOnly).1 !! constants.UsersCollection
  = usersOnly !! constants.UsersCollection.
Proof.
  apply (CreateItemsCollection_frame indexesDown usersOnly
           constants.UsersCollection).
  by vm_compute.
Defined.

Lemma CreateItemsCollection_error_iff_witness :
  (CreateItemsCollection indexesDown usersOnly).2 = Some IndexBuildFailed.
Proof.
  apply (proj2 (CreateItemsCollection_error_iff indexesDown usersOnly
                  IndexBuildFailed)).
  repeat split; by vm_compute.
Defined.

Lemma CreateItemsCollection_again_witness :
  CreateItemsCollection indexesDown (CreateItemsCollection calm usersOnly).1
  = ((CreateItemsCollection calm usersOnly).1, None).
Proof.
  apply (CreateItemsCollection_again calm indexesDown usersOnly).
  reflexivity.
Defined.

Lemma failed_indexes_are_never_created_witness :
  provisionItems indexesDown usersOnly = Fatal IndexBuildFailed
  ∧ provisionItems calm (CreateItemsCollection indexesDown usersOnly).1
    = GoesOn (CreateItemsCollection indexesDown usersOnly).1.
Proof.
  destruct (failed_indexes_are_never_created indexesDown calm usersOnly
              IndexBuildFailed) as (Hfatal & _ & Hon);
    [done | by vm_compute | done |].
  by split.
Defined.

End ProvisioningInstances.

(** ** The handlers, whatever the repository answers *)

Section Outcomes.
Import main api.

Ltac step H :=
  cbn [lift outcome opOf repoOpOf] in H;
  let x := fresh "x" in
  let t := fresh "t" in
  destruct H as (x & t & H & ->).

(** X10: [createItemHandler] makes at most one repository call, a
    [Create].  It replies bad-request for a body that cannot be decoded
    and failed-validation for an invalid one, both before any call.  The
    item it sends has the fields of the body, no id and version 1, has
    passed validation and fits the schema of the collection; the reply
    is then the created response or a server error, never another. *)
Theorem createItemHandler_outcomes (body : option create.input)
    (t : list Op) (r : Reply) :
  outcome (lift (createItemHandler body)) t r →
  (body = None ∧ t = [] ∧ r = Plain BadRequestResponse)
  ∨ (∃ errors, t = [] ∧ r = Plain (FailedValidationResponse errors)
               ∧ errors ≠ ∅)
  ∨ (∃ (input : create.input) (item : Item),
       body = Some input
       ∧ t = [OpRepo (OpCreate item)]
       ∧ Name item = create.Name input
       ∧ Description item = create.Description input
       ∧ Price item = create.Price input
       ∧ ID item = 0%N
       ∧ Version item = 1
       ∧ HasErrors (ValidateItem New item) = false
       ∧ itemsValidator item = true
       ∧ (r = Plain ServerErrorResponse
          ∨ ∃ id, r = Plain (CreatedResponse "Item created successfully" id))).
Proof.
  intros H. destruct body as [input|].
  - right. unfold createItemHandler in H.
    step H. step H.
    match type of H with
    | context [HasErrors ?v] => destruct (HasErrors v) eqn:Hv
    end.
    + left. cbn [lift outcome] in H. destruct H as [-> <-].
      eexists. split; [done|]. split; [done|].
      unfold HasErrors in Hv.
      by rewrite negb_true_iff, bool_decide_eq_false in Hv.
    + right. step H.
      eexists input, _. split; [done|]. split.
      { destruct x1 as [id|e]; [step H; destruct x1|];
          cbn [lift outcome] in H; by destruct H as [-> _]. }
      repeat split; try done.
      { by apply valid_item_accepted. }
      destruct x1 as [id|e]; [step H; destruct x1|];
        cbn [lift outcome] in H; destruct H as [_ <-]; eauto.
  - left. cbn in H. by destruct H as [-> <-].
Qed.

(** X11: [updateItemHandler] makes no call for an id that is not an
    ObjectID, and otherwise a [GetByID] of that id, followed by at most
    one [Update].  Not-found, bad-request and failed-validation replies
    come before any write.  An item is sent to [Update] only once it has
    passed validation, with the supplied fields of the body in it; the
    reply is then ok, edit-conflict or a server error. *)
Theorem updateItemHandler_outcomes (idParam : option ObjectID)
    (body : option update.input) (t : list Op) (r : Reply) :
  outcome (lift (updateItemHandler idParam body)) t r →
  (idParam = None ∧ t = [] ∧ r = Plain NotFoundResponse)
  ∨ ∃ id, idParam = Some id
    ∧ ((t = [OpRepo (OpGetByID id)]
        ∧ (r = Plain NotFoundResponse
           ∨ r = Plain ServerErrorResponse
           ∨ (body = None ∧ r = Plain BadRequestResponse)
           ∨ ∃ errors, r = Plain (FailedValidationResponse errors)
                       ∧ errors ≠ ∅))
       ∨ (∃ (input : update.input) (read item : Item) (now : Time),
            body = Some input
            ∧ t = [OpRepo (OpGetByID id); OpRepo (OpUpdate item)]
            ∧ item = setUpdatedAt (merge read input) now
            ∧ HasErrors (ValidateItem New item) = false
            ∧ (r = Plain (OKResponse "Item updated successfully")
               ∨ r = Plain EditConflictResponse
               ∨ r = Plain ServerErrorResponse))).
Proof.
  intros H. destruct idParam as [id|].
  - right. exists id. split; [done|].
    unfold updateItemHandler in H. step H.
    destruct x as [read|e].
    + destruct body as [input|].
      * step H.
        match type of H with
        | context [HasErrors ?v] => destruct (HasErrors v) eqn:Hv
        end.
        -- left. cbn [lift outcome] in H. destruct H as [-> <-].
           split; [done|]. do 3 right.
           eexists. split; [done|].
           unfold HasErrors in Hv.
           by rewrite negb_true_iff, bool_decide_eq_false in Hv.
        -- right. step H.
           eexists input, read, _, x.
           split; [done|]. split.
           { destruct x0 as [[]|]; [| | |step H; destruct x0];
               cbn [lift outcome] in H; by destruct H as [-> _]. }
           split; [done|]. split; [done|].
           destruct x0 as [[]|]; [| | |step H; destruct x0];
             cbn [lift outcome] in H; destruct H as [_ <-]; auto.
      * left. cbn [lift outcome] in H. destruct H as [-> <-].
        split; [done|]. right; right; left. done.
    + left. destruct e; cbn [lift outcome] in H; destruct H as [-> <-];
        (split; [done|]); auto.
  - left. cbn in H. by destruct H as [-> <-].
Qed.

Lemma getItemHandler_calls (idParam : option ObjectID)
    (t : list Op) (r : Reply) :
  outcome (getItemHandler idParam) t r →
  t = [] ∨ ∃ id, t = [OpRepo (OpGetByID id)].
Proof.
  intros H. destruct idParam as [id|].
  - right. exists id. unfold getItemHandler in H.
    cbn [outcome opOf repoOpOf] in H. destruct H as (x & t' & H & ->).
    destruct x as [item|[]]; cbn [outcome] in H.
    + destruct H as (ok & t'' & H & ->).
      by destruct ok; cbn [outcome] in H; destruct H as [-> _].
    + by destruct H as [-> _].
    + by destruct H as [-> _].
    + by destruct H as [-> _].
  - left. cbn in H. by destruct H as [-> _].
Qed.



End Outcomes.

(** ** Listing *)

Section ListingProperties.
Import main api.

Variable DefaultPrice : float.
Variable ValidateFilters : Validator → Filters → Validator.

Lemma HasErrors_Check (v : Validator) (ok : bool) (key message : string) :
  HasErrors (Check v ok key message) = false →
  HasErrors v = false ∧ ok = true.
Proof.
  destruct ok; [done|]. intros Hno.
  rewrite (HasErrors_key _ key) in Hno; [done|].
  rewrite Check_failed_key. by eexists.
Qed.

Lemma HasErrors_kept (v : Validator) (ok : bool) (key message : string) :
  HasErrors v = true → HasErrors (Check v ok key message) = true.
Proof.
  intros Hv. destruct (HasErrors (Check v ok key message)) eqn:Hc; [done|].
  apply HasErrors_Check in Hc as [Hc _]. congruence.
Qed.

(** X14: the filter of a listing has at most the keys "$text" and
    "price": a text search on the name when a name was given, and a price
    range holding "$gte" when min_price differs from the default price and
    "$lte" when max_price does; no "price" key when both are the default. *)
Theorem queryFilter_keys (input : query.input) :
  queryFilter DefaultPrice input !! "$text"
  = (if bool_decide (query.Name input = "") then None
     else Some (mongo.BDoc
                  [("$search", mongo.BString (query.Name input))]))
  ∧ queryFilter DefaultPrice input !! "price"
    = (if given DefaultPrice (query.MinPrice input)
          || given DefaultPrice (query.MaxPrice input)
       then Some (mongo.BDoc
                    ((if given DefaultPrice (query.MinPrice input)
                      then [("$gte", mongo.BDouble (query.MinPrice input))]
                      else [])
                     ++ (if given DefaultPrice (query.MaxPrice input)
                         then [("$lte", mongo.BDouble (query.MaxPrice input))]
                         else [])))
       else None)
  ∧ ∀ k : string, k ≠ "$text" → k ≠ "price" →
      queryFilter DefaultPrice input !! k = None.
Proof.
  unfold queryFilter, given, omitted.
  destruct (PrimFloat.eqb (query.MinPrice input) DefaultPrice),
    (PrimFloat.eqb (query.MaxPrice input) DefaultPrice);
    case_bool_decide; cbn [negb andb orb app];
    (split; [|split; [|intros k Hk1 Hk2]]);
    rewrite ?lookup_insert_eq, ?lookup_insert_ne, ?lookup_empty by done;
    done.
Qed.

(** The calls of a listing, whatever [ValidateFilters] does. *)
Lemma getItemsHandler_calls (v : Validator) (input : query.input)
    (t : list Op) (r : Reply) :
  outcome (getItemsHandler DefaultPrice ValidateFilters v input) t r →
  (t = [] ∧ ∃ errors, r = Plain (FailedValidationResponse errors))
  ∨ (t = [OpGetAll (queryFilter DefaultPrice input) (queryFilters input)]
     ∧ HasErrors (validateQuery DefaultPrice ValidateFilters v input) = false
     ∧ (r = Plain ServerErrorResponse
        ∨ ∃ items metadata, r = OKEnvelope (EnvItems items metadata))).
Proof.
  unfold getItemsHandler. intros H.
  destruct (HasErrors _) eqn:Hv.
  - left. cbn [outcome] in H. destruct H as [-> <-]. eauto.
  - right. cbn [outcome opOf] in H. destruct H as (x & t' & H & ->).
    split; [|split; [done|]].
    + destruct x as [[items md]|e]; cbn [outcome] in H.
      * destruct H as (ok & t'' & H & ->).
        by destruct ok; cbn [outcome] in H; destruct H as [-> _].
      * by destruct H as [-> _].
    + destruct x as [[items md]|e]; cbn [outcome] in H.
      * destruct H as (ok & t'' & H & ->).
        destruct ok; cbn [outcome] in H; destruct H as [_ <-]; eauto.
      * destruct H as [_ <-]. auto.
Qed.

(** [ValidateFilters] only adds to the validator it is given. *)
Hypothesis ValidateFilters_keeps :
  ∀ v f, HasErrors v = true → HasErrors (ValidateFilters v f) = true.

(** X15: a listing makes at most one repository call, a [GetAll] with
    the filter and the filters of the request, and makes it only when
    the reads of the query string left no error, min_price and max_price
    both lie within [0.1, 1000], given or not, and min_price ≤ max_price
    when both differ from the default price; otherwise it replies
    failed-validation without any call. *)
Theorem getItemsHandler_outcomes (v : Validator) (input : query.input)
    (t : list Op) (r : Reply) :
  outcome (getItemsHandler DefaultPrice ValidateFilters v input) t r →
  (t = [] ∧ ∃ errors, r = Plain (FailedValidationResponse errors))
  ∨ (t = [OpGetAll (queryFilter DefaultPrice input) (queryFilters input)]
     ∧ SortSafelist (queryFilters input)
       = ["_id"; "name"; "price"; "-_id"; "-name"; "-price"]
     ∧ HasErrors v = false
     ∧ Between (query.MinPrice input) 0.1 1000 = true
     ∧ Between (query.MaxPrice input) 0.1 1000 = true
     ∧ (given DefaultPrice (query.MinPrice input) = true →
        given DefaultPrice (query.MaxPrice input) = true →
        PrimFloat.leb (query.MinPrice input) (query.MaxPrice input) = true)
     ∧ (r = Plain ServerErrorResponse
        ∨ ∃ items metadata, r = OKEnvelope (EnvItems items metadata))).
Proof.
  intros H. apply getItemsHandler_calls in H as [H | (Ht & Hv & Hr)];
    [by left | right].
  split; [done|]. split; [done|].
  unfold validateQuery in Hv.
  destruct (HasErrors (ValidateFilters _ _)) eqn:Hvf in Hv; [done|].
  clear Hv.
  match type of Hvf with
  | HasErrors (ValidateFilters ?v0 _) = false =>
      assert (Hv0 : HasErrors v0 = false)
        by (destruct (HasErrors v0) eqn:E; [|done];
            by rewrite (ValidateFilters_keeps _ _ E) in Hvf)
  end.
  clear Hvf.
  destruct (given DefaultPrice (query.MinPrice input)
            && given DefaultPrice (query.MaxPrice input)) eqn:Hboth.
  - apply HasErrors_Check in Hv0 as [Hv0 Hle].
    apply HasErrors_Check in Hv0 as [Hv0 Hmax].
    apply HasErrors_Check in Hv0 as [Hv0 Hmin].
    by repeat split.
  - apply HasErrors_Check in Hv0 as [Hv0 Hmax].
    apply HasErrors_Check in Hv0 as [Hv0 Hmin].
    repeat split; try done.
    intros Hg1 Hg2. by rewrite Hg1, Hg2 in Hboth.
Qed.

End ListingProperties.

(** ** Routes *)

Section Routes.
Import main api.

Lemma healthCheckHandler_calls (t : list Op) (r : Reply) :
  outcome healthCheckHandler t r → t = [].
Proof.
  unfold healthCheckHandler. cbn [outcome opOf repoOpOf].
  intros (ok & t' & H & ->).
  by destruct ok; cbn [outcome] in H; destruct H as [-> _].
Qed.

(** X16: a request can lead to a write on the repository (a [Create], an
    [Update] or a [Delete]) only on a route that runs [Authenticate] and
    requires the permission "catalog:write"; the routes that require
    "catalog:read", and the health check, never write. *)
Theorem writes_require_write_permission (DefaultPrice : float)
    (ValidateFilters : Validator → Filters → Validator)
    (rt : Route) (req : Request) (p : Handler Reply)
    (t : list Op) (r : Reply) :
  rt ∈ routes →
  serve DefaultPrice ValidateFilters (endpoint rt) req = Some p →
  outcome p t r →
  existsb isWrite t = true →
  authenticated rt = true ∧ permission rt = Some "catalog:write".
Proof.
  intros Hrt Hserve Hout Hw. unfold routes in Hrt.
  repeat (apply elem_of_cons in Hrt as [-> | Hrt]);
    [ | | | done | done | done | | by apply elem_of_nil in Hrt];
    cbn [endpoint openRoute itemsRoute serve] in Hserve;
    try discriminate; injection Hserve as <-.
  - apply healthCheckHandler_calls in Hout as ->. done.
  - apply getItemsHandler_calls in Hout as [[-> _] | (-> & _)]; done.
  - apply getItemHandler_calls in Hout as [-> | (id & ->)]; done.
Qed.

End Routes.

(** ** Startup *)

Section Startup.
Import startup.

Lemma reaches_call (s : Step) (k : Answer → Main) (t : list (Step * Answer))
    (x : Step * Answer) :
  x ∈ t → reaches (Call s k) t →
  ∃ a t', t = (s, a) :: t' ∧ reaches (k a) t' ∧ (x = (s, a) ∨ x ∈ t').
Proof.
  intros Hin Hr. destruct t as [|[s' a] t']; [by apply elem_of_nil in Hin|].
  cbn in Hr. destruct Hr as [-> Hr]. exists a, t'.
  apply elem_of_cons in Hin. done.
Qed.

Lemma reaches_halted (m : Main) (t : list (Step * Answer)) :
  halted m → reaches m t → t = [].
Proof. intros Hm Hr. destruct t as [|[s a] t']; [done|]. by destruct m. Qed.

(** While the deferred calls run, only they are called. *)
Lemma reaches_runDeferred (ds : list Step) (finally : Main)
    (t : list (Step * Answer)) (x : Step * Answer) :
  halted finally → reaches (runDeferred ds finally) t → x ∈ t → x.1 ∈ ds.
Proof.
  revert finally t. induction ds as [|d ds IH]; intros finally t Hfin Hr Hin.
  - cbn in Hr. rewrite (reaches_halted _ _ Hfin Hr) in Hin.
    by apply elem_of_nil in Hin.
  - cbn [runDeferred] in Hr.
    destruct (reaches_call _ _ _ _ Hin Hr) as (a & t' & -> & Hr' & [-> | Hin']).
    + apply list_elem_of_here.
    + apply list_elem_of_further. destruct a as [failed|].
      * destruct (failed && bool_decide (d = DisconnectMongo)).
        -- rewrite (reaches_halted FatalExit t' I Hr') in Hin'.
           by apply elem_of_nil in Hin'.
        -- by apply (IH finally t').
      * by apply (IH Crash t').
Qed.

(** If the disconnection, deferred first, is reached, every deferred
    call was made, in order, and nothing after it. *)
Lemma reaches_runDeferred_all (ds : list Step) (finally : Main)
    (t : list (Step * Answer)) (a : Answer) :
  halted finally → DisconnectMongo ∉ ds →
  reaches (runDeferred (ds ++ [DisconnectMongo]) finally) t →
  (DisconnectMongo, a) ∈ t →
  t.*1 = ds ++ [DisconnectMongo].
Proof.
  revert finally t. induction ds as [|d ds IH]; intros finally t Hfin Hnot Hr Hin.
  - cbn [app runDeferred] in Hr.
    destruct (reaches_call _ _ _ _ Hin Hr) as (a1 & t' & -> & Hr' & _).
    assert (t' = []) as ->; [|done].
    destruct a1 as [failed|].
    + rewrite bool_decide_eq_true_2 in Hr' by done.
      destruct failed; cbn in Hr'.
      * by apply (reaches_halted FatalExit).
      * by apply (reaches_halted finally).
    + by apply (reaches_halted Crash).
  - apply not_elem_of_cons in Hnot as [Hne Hnot].
    cbn [app runDeferred] in Hr.
    destruct (reaches_call _ _ _ _ Hin Hr)
      as (a1 & t' & -> & Hr' & [[= <- _] | Hin']); [done|].
    cbn [fmap list_fmap fst]. rewrite <- app_comm_cons. f_equal.
    destruct a1 as [failed|].
    + cbn beta iota in Hr'.
      rewrite (bool_decide_eq_false_2 (d = DisconnectMongo)), andb_false_r
        in Hr' by congruence.
      by apply (IH finally t').
    + by apply (IH Crash t').
Qed.

Lemma reaches_deferred_run (ds : list Step) (finally : Main)
    (t : list (Step * Answer)) (a : Answer) :
  reaches (runDeferred ds finally) t → halted finally →
  NoDup ds → last ds = Some DisconnectMongo →
  (DisconnectMongo, a) ∈ t → t.*1 = ds.
Proof.
  intros Hr Hfin Hnd Hlast Hin.
  apply last_Some in Hlast as [ds' ->].
  apply NoDup_app in Hnd as (_ & Hnot & _).
  apply (reaches_runDeferred_all ds' finally t a); [done| |done..].
  intros Hd. apply (Hnot _ Hd), list_elem_of_here.
Qed.

Lemma reaches_over (m : Main) (t : list (Step * Answer))
    (x : Step * Answer) :
  reaches m t → halted m → x ∈ t → False.
Proof.
  intros Hr Hm Hin. rewrite (reaches_halted m t Hm Hr) in Hin.
  by apply elem_of_nil in Hin.
Qed.

Lemma reaches_deferred_only (ds : list Step) (finally : Main)
    (t : list (Step * Answer)) (x : Step * Answer) :
  reaches (runDeferred ds finally) t → halted finally → x ∈ t → x.1 ∈ ds.
Proof. intros Hr Hfin Hin. by apply (reaches_runDeferred ds finally t). Qed.

(** The run is over, or only deferred calls are left: the call looked
    for, which is not one of them, is not made. *)
Ltac stopped Hr Hin :=
  exfalso;
  first
    [ exact (reaches_over _ _ _ Hr I Hin)
    | let H := fresh in
      pose proof (reaches_deferred_only _ _ _ _ Hr I Hin) as H;
      cbn in H;
      repeat (apply elem_of_cons in H as [H|H]; [discriminate H|]);
      by apply elem_of_nil in H ].

(** One more call of [main] before [Serve]: it returned, and without
    error when the error is tested. *)
Ltac next Hr Hin :=
  let a := fresh "a" in
  let t := fresh "t" in
  let Hr' := fresh "Hr" in
  let Hin' := fresh "Hin" in
  let failed := fresh "failed" in
  let Heq := fresh "Heq" in
  destruct (reaches_call _ _ _ _ Hin Hr) as (a & t & -> & Hr' & [Heq | Hin']);
  [discriminate Heq|];
  clear Hr Hin; rename Hr' into Hr; rename Hin' into Hin;
  destruct a as [failed|]; cbn beta iota in Hr; [|by stopped Hr Hin];
  try (destruct failed; [by stopped Hr Hin|]).

(** X17: [Serve] is called only when every call before it has returned,
    none having panicked, and [LoadConfig], the provisioning of the items
    and of the users collection and the connection to RabbitMQ have
    returned without error; the calls are those of the text, in its
    order, the consumer being started before the routes are built. *)
Theorem Serve_follows_provisioning (t : list (Step * Answer))
    (served : Answer) :
  reaches main t → (Serve, served) ∈ t →
  ∃ (logger client tracer users consumer started otel items routes : bool)
    (rest : list (Step * Answer)),
    t = [ (NewLogger, Returned logger); (LoadConfig, Returned false);
          (NewMongoClient, Returned client);
          (CreateItemsCollection, Returned false);
          (CreateUsersCollection, Returned false);
          (SetupTracer, Returned tracer);
          (NewRabbitMQConnection, Returned false);
          (NewUsersRepository, Returned users);
          (NewUserUpdatedConsumer, Returned consumer);
          (GoStartConsumer, Returned started);
          (OtelTracer, Returned otel);
          (NewItemsRepository, Returned items);
          (Routes, Returned routes);
          (Serve, served) ] ++ rest.
Proof.
  intros Hr Hin. unfold main in Hr. cbv zeta in Hr.
  unfold always at 1 in Hr. next Hr Hin.
  unfold checked at 1 in Hr. next Hr Hin.
  unfold always at 1 in Hr. next Hr Hin.
  unfold checked at 1 in Hr. next Hr Hin.
  unfold checked at 1 in Hr. next Hr Hin.
  unfold always at 1 in Hr. next Hr Hin.
  unfold checked at 1 in Hr. next Hr Hin.
  unfold always at 1 in Hr. next Hr Hin.
  unfold always at 1 in Hr. next Hr Hin.
  unfold always at 1 in Hr. next Hr Hin.
  unfold always at 1 in Hr. next Hr Hin.
  unfold always at 1 in Hr. next Hr Hin.
  unfold always at 1 in Hr. next Hr Hin.
  unfold checked at 1 in Hr.
  destruct (reaches_call _ _ _ _ Hin Hr)
    as (ans & more & -> & Hr' & [[= <-] | Hin']).
  - by eexists _, _, _, _, _, _, _, _, _, _.
  - destruct ans as [[]|]; cbn beta iota in Hr'; by stopped Hr' Hin'.
Qed.

Ltac calls l :=
  lazymatch l with
  | ?x :: ?l' => let p := calls l' in constr:(x :: p)
  | _ => constr:(@nil (Step * Answer))
  end.

Ltac remainder l :=
  lazymatch l with
  | _ :: ?l' => remainder l'
  | _ => constr:(l)
  end.

(** The calls made so far are the body, what is left of the run the
    deferred calls. *)
Ltac unwinding Hr Hin :=
  let H := fresh in
  pose proof (reaches_deferred_run _ _ _ _ Hr I
                ltac:(by apply (bool_decide_unpack _)) eq_refl Hin) as H;
  lazymatch goal with
  | |- ∃ body closing, ?l = _ ∧ _ =>
      let p := calls l in let r := remainder l in exists p, r
  end;
  split; [reflexivity|];
  split; [by repeat constructor|];
  split; [by rewrite H|].

(** One more call of [main]: it returned, without error when the error
    is tested, or it panicked and the deferred calls follow. *)
Ltac step Hr Hin :=
  let a := fresh "a" in
  let t := fresh "t" in
  let Hr' := fresh "Hr" in
  let Hin' := fresh "Hin" in
  let failed := fresh "failed" in
  let Heq := fresh "Heq" in
  destruct (reaches_call _ _ _ _ Hin Hr) as (a & t & -> & Hr' & [Heq | Hin']);
  [discriminate Heq|];
  clear Hr Hin; rename Hr' into Hr; rename Hin' into Hin;
  destruct a as [failed|]; cbn beta iota in Hr;
  [ try (destruct failed; [by stopped Hr Hin|])
  | first [ by stopped Hr Hin
          | unwinding Hr Hin; right; by eexists ] ].


(** A client that could not be obtained does not stop [main]: the
    provisioning of the items is called next; if it panics, the
    disconnection, deferred before, is still called. *)
Lemma panicStart_reached (a : Answer) :
  reaches main (Cases.panicStart ++ [(DisconnectMongo, a)]).
Proof. vm_compute. by repeat split. Qed.

Lemma Serve_follows_provisioning_witness :
  reaches main Cases.cleanStart
  ∧ (Serve, Returned false) ∈ Cases.cleanStart
  ∧ ∃ (logger client tracer users consumer started otel items routes : bool)
      (rest : list (Step * Answer)),
      Cases.cleanStart =
        [ (NewLogger, Returned logger); (LoadConfig, Returned false);
          (NewMongoClient, Returned client);
          (CreateItemsCollection, Returned false);
          (CreateUsersCollection, Returned false);
          (SetupTracer, Returned tracer);
          (NewRabbitMQConnection, Returned false);
          (NewUsersRepository, Returned users);
          (NewUserUpdatedConsumer, Returned consumer);
          (GoStartConsumer, Returned started);
          (OtelTracer, Returned otel);
          (NewItemsRepository, Returned items);
          (Routes, Returned routes);
          (Serve, Returned false) ] ++ rest.
Proof.
  assert (Hr : reaches main Cases.cleanStart) by (vm_compute; by repeat split).
  assert (Hin : (Serve, Returned false) ∈ Cases.cleanStart)
    by (by apply (list_elem_of_lookup_2 _ 13)).
  split; [exact Hr|]. split; [exact Hin|].
  exact (Serve_follows_provisioning _ _ Hr Hin).
Defined.


End Startup.

(** ** The runs in a world are outcomes *)

Section Adequacy.
Import main api.

Lemma exec_ops {X : Type} (w w' : World) (c : Call X) (x : X) :
  exec w c = (w', x) →
  ops w' = ops w ++ match repoOpOf c with Some op => [op] | None => [] end.
Proof.
  destruct c; cbn [exec repoOpOf]; cbv zeta.
  - intros [= <- _]. by rewrite app_nil_r.
  - by intros [= <- _].
  - destruct (itemsCreate _ _ _). by intros [= <- _].
  - destruct (itemsUpdate _ _). by intros [= <- _].
  - intros [= <- _]. by rewrite app_nil_r.
Qed.

(** A run of a handler in a world makes repository calls and gives a
    reply that are among its outcomes. *)
Lemma run_outcome (p : Prog Response) (w w' : World) (r : Response) :
  run w p = (w', r) →
  ∃ t, ops w' = ops w ++ t ∧ outcome (lift p) (OpRepo <$> t) (Plain r).
Proof.
  revert w. induction p as [r0 | X c k IH]; intros w Hrun.
  - injection Hrun as <- <-. exists []. by rewrite app_nil_r.
  - cbn [run] in Hrun. destruct (exec w c) as [w1 x] eqn:Hexec.
    destruct (IH x w1 Hrun) as (t' & Hops & Hout).
    apply exec_ops in Hexec.
    exists (match repoOpOf c with Some op => [op] | None => [] end ++ t').
    split; [by rewrite Hops, Hexec, app_assoc|].
    cbn [lift outcome opOf]. exists x, (OpRepo <$> t').
    split; [done|]. rewrite fmap_app. by destruct (repoOpOf c).
Qed.

End Adequacy.

(** ** The further properties at concrete requests *)

Section OutcomeInstances.
Import main api Scenario Cases.

Lemma created_outcome :
  outcome (lift (createItemHandler (Some potion)))
    [OpRepo (OpCreate potionItem)]
    (Plain (CreatedResponse "Item created successfully" 7%N)).
Proof.
  assert (Hrun : run atMidnight (createItemHandler (Some potion))
                 = ((run atMidnight (createItemHandler (Some potion))).1,
                    CreatedResponse "Item created successfully" 7%N))
    by (rewrite (surjective_pairing (run _ _)) at 1; f_equal;
        by vm_compute).
  pose proof (run_outcome _ _ _ _ Hrun) as (t & Hops & Hout).
  vm_compute in Hops. subst t. exact Hout.
Defined.

Lemma createItemHandler_outcomes_witness :
  ∃ (input : create.input) (item : Item),
    Some potion = Some input
    ∧ [OpRepo (OpCreate potionItem)] = [OpRepo (OpCreate item)]
    ∧ Version item = 1
    ∧ HasErrors (ValidateItem New item) = false
    ∧ itemsValidator item = true.
Proof.
  destruct (createItemHandler_outcomes _ _ _ created_outcome)
    as [(Hnone & _) | [(errors & Ht & _) | Hsent]];
    [discriminate Hnone | discriminate Ht |].
  destruct Hsent as (input & item & Hb & Ht & _ & _ & _ & _ & Hv & Hok & Hs & _).
  by exists input, item.
Defined.

Lemma conflict_outcome :
  outcome (lift (updateItemHandler (Some 7%N) (Some (priceOnly 9))))
    [OpRepo (OpGetByID 7%N);
     OpRepo (OpUpdate (edited raced (withID sword 7%N) (priceOnly 9)))]
    (Plain EditConflictResponse).
Proof.
  assert (Hrun : run raced
                   (updateItemHandler (Some 7%N) (Some (priceOnly 9)))
                 = ((run raced
                       (updateItemHandler (Some 7%N)
                          (Some (priceOnly 9)))).1,
                    EditConflictResponse))
    by (rewrite (surjective_pairing (run _ _)) at 1; f_equal;
        by vm_compute).
  pose proof (run_outcome _ _ _ _ Hrun) as (t & Hops & Hout).
  vm_compute in Hops. subst t. exact Hout.
Defined.

Lemma updateItemHandler_outcomes_witness :
  ∃ id, Some 7%N = Some id
    ∧ ∃ (input : update.input) (read item : Item) (now : Time),
        Some (priceOnly 9) = Some input
        ∧ item = setUpdatedAt (merge read input) now
        ∧ HasErrors (ValidateItem New item) = false.
Proof.
  destruct (updateItemHandler_outcomes _ _ _ _ conflict_outcome)
    as [(Hnone & _) | (id & Hid & [(Ht & _) | Hsent])];
    [discriminate Hnone | discriminate Ht |].
  destruct Hsent as (input & read & item & now & Hb & _ & Hi & Hv & _).
  exists id. split; [exact Hid|]. by exists input, read, item, now.
Defined.





Lemma pageCheck_keeps (v : Validator) (f : Filters) :
  HasErrors v = true → HasErrors (pageCheck v f) = true.
Proof. apply HasErrors_kept. Qed.

Lemma listed_outcome :
  outcome (getItemsHandler 0.1 pageCheck New bows)
    [OpGetAll (queryFilter 0.1 bows) (queryFilters bows)]
    (OKEnvelope (EnvItems [] {| CurrentPage := 1; PerPage := 20;
                                TotalPages := 0; TotalRecords := 0 |})).
Proof.
  unfold getItemsHandler.
  replace (HasErrors (validateQuery 0.1 pageCheck New bows)) with false
    by (by vm_compute).
  cbn [outcome opOf].
  eexists (Ok ([], _)), []. split; [|by rewrite app_nil_r].
  by exists true, [].
Defined.

Lemma queryFilter_keys_witness :
  queryFilter 0.1 bows !! "price"
  = Some (mongo.BDoc [("$gte", mongo.BDouble 2)])
  ∧ queryFilter 0.1 bows !! "_id" = None.
Proof.
  destruct (queryFilter_keys 0.1 bows) as (_ & Hprice & Hother).
  split.
  - rewrite Hprice. by vm_compute.
  - by apply Hother.
Defined.

Lemma getItemsHandler_outcomes_witness :
  Between (query.MinPrice bows) 0.1 1000 = true
  ∧ Between (query.MaxPrice bows) 0.1 1000 = true.
Proof.
  destruct (getItemsHandler_outcomes 0.1 pageCheck pageCheck_keeps
              New bows _ _ listed_outcome)
    as [(Hnone & _) | (_ & _ & _ & Hmin & Hmax & _)];
    [discriminate Hnone | by split].
Defined.

Lemma deleted_outcome :
  outcome (deleteItemHandler (Some 7%N)) [OpDelete 7%N]
    (Plain (OKResponse "Item deleted successfully")).
Proof.
  cbn. exists None, []. split; [|done]. by exists true, [].
Defined.

Lemma writes_require_write_permission_witness :
  authenticated deleteRoute = true
  ∧ permission deleteRoute = Some "catalog:write".
Proof.
  apply (writes_require_write_permission 0.1 pageCheck deleteRoute
           anyRequest (deleteItemHandler (Some 7%N)) [OpDelete 7%N]
           (Plain (OKResponse "Item deleted successfully"))).
  - unfold routes. do 5 apply list_elem_of_further.
    apply list_elem_of_here.
  - reflexivity.
  - exact deleted_outcome.
  - reflexivity.
Defined.

End OutcomeInstances.
